(** * NovaStack: dashboard front end and registry schema

    A shallow embedding of the parts of the NovaStack repository that the
    specification talks about:

    - [Js]: the JavaScript string primitives the dashboard pages call;
    - [NewProjectPage]: the new-project wizard
      (frontend/src/app/dashboard/page.tsx, second component);
    - [ProjectsPage]: the projects listing
      (frontend/src/app/dashboard/projects/page.tsx);
    - [InitSql], [ApiKeys]: the registry tables [users], [projects] and
      [api_keys] of the initialisation script, with the constraints
      they declare;
    - [TypeMapper], [Synthesis], [Dispatcher], [Lifecycle]: the back-end
      services, whose Python sources are not part of the repository files
      at hand and are modelled from the specification. *)

From Stdlib Require Import String Ascii List Bool ZArith Lia.
From stdpp Require Import base decidable option list strings gmap.
Import ListNotations.

Local Open Scope string_scope.
Local Open Scope list_scope.

(** ** Strings

    A string is held in UTF-8, the form in which a string literal is
    read: a character is a lead byte with the continuation bytes
    ([10xxxxxx]) that follow it. *)

Module Utf8.

Definition continuation (a : ascii) : bool :=
  let n := nat_of_ascii a in (128 <=? n)%nat && (n <? 192)%nat.

End Utf8.

(** ** JavaScript string primitives

    The strings are those without an unpaired surrogate, each held as
    the UTF-8 sequences of its code points. *)

Module Js.

(** [''] is the only falsy string: [if (searchQuery)] tests this. *)
Definition truthy (s : string) : bool := negb (String.eqb s "").

(** [a === b] on two strings. *)
Definition strict_eq (a b : string) : bool := String.eqb a b.

(** [s.includes(searchString)]: [searchString] occurs in [s] at some
    position. *)
Fixpoint includes (s searchString : string) : bool :=
  String.prefix searchString s ||
  match s with
  | EmptyString => false
  | String _ rest => includes rest searchString
  end.

(** What [includes] decides: an occurrence of [sub] inside [s]. *)
Definition occurs_in (sub s : string) : Prop :=
  exists pre post : string, s = (pre ++ sub ++ post)%string.

(** ASCII case folding, an instance of [toLowerCase] usable on strings
    whose code units are all below 128. *)
Definition ascii_lower (c : ascii) : ascii :=
  let n := nat_of_ascii c in
  if (65 <=? n)%nat && (n <=? 90)%nat then ascii_of_nat (n + 32) else c.

Fixpoint ascii_toLowerCase (s : string) : string :=
  match s with
  | EmptyString => EmptyString
  | String c rest => String (ascii_lower c) (ascii_toLowerCase rest)
  end.

(** Whether [rest] goes on with the sequence begun before it. *)
Definition continues (rest : string) : bool :=
  match rest with
  | String b _ => Utf8.continuation b
  | EmptyString => false
  end.

(** The code points of a string, each as its UTF-8 sequence: a lead
    byte with the continuation bytes that follow it. *)
Fixpoint codePoints (s : string) : list string :=
  match s with
  | EmptyString => []
  | String a rest =>
      if continues rest then
        match codePoints rest with
        | first :: others => String a first :: others
        | [] => [String a EmptyString]
        end
      else String a EmptyString :: codePoints rest
  end.

Definition join (pieces : list string) : string :=
  fold_right String.append EmptyString pieces.

(** The code point a UTF-8 sequence stands for (U+FFFD for what is not
    a sequence). *)
Definition codePointAt (sequence : string) : N :=
  let low (a : ascii) := N.land (N_of_ascii a) 63 in
  match sequence with
  | String a EmptyString =>
      if (N_of_ascii a <? 128)%N then N_of_ascii a else 65533%N
  | String a (String b EmptyString) =>
      if (192 <=? N_of_ascii a)%N && (N_of_ascii a <? 224)%N
      then ((N_of_ascii a - 192) * 64 + low b)%N else 65533%N
  | String a (String b (String c EmptyString)) =>
      if (224 <=? N_of_ascii a)%N && (N_of_ascii a <? 240)%N
      then (((N_of_ascii a - 224) * 64 + low b) * 64 + low c)%N
      else 65533%N
  | String a (String b (String c (String d EmptyString))) =>
      if (240 <=? N_of_ascii a)%N && (N_of_ascii a <? 248)%N
      then ((((N_of_ascii a - 240) * 64 + low b) * 64 + low c) * 64 + low d)%N
      else 65533%N
  | _ => 65533%N
  end.

(** [String.fromCodePoint(cp)]: the UTF-8 sequence of a code point. *)
Definition fromCodePoint (cp : N) : string :=
  let byte (n : N) := String (ascii_of_N n) EmptyString in
  let next (n : N) := byte (128 + n mod 64)%N in
  if (cp <? 128)%N then byte cp
  else if (cp <? 2048)%N then (byte (192 + cp / 64)%N ++ next cp)%string
  else if (cp <? 65536)%N then
    (byte (224 + cp / 4096)%N ++ next (cp / 64)%N ++ next cp)%string
  else
    (byte (240 + cp / 262144)%N ++ next (cp / 4096)%N ++ next (cp / 64)%N
     ++ next cp)%string.

(** The code points [trim] removes: WhiteSpace (tab, vertical tab, form
    feed, U+FEFF and the space separators U+0020, U+00A0, U+1680,
    U+2000 to U+200A, U+202F, U+205F, U+3000) and LineTerminator (line
    feed, carriage return, U+2028, U+2029). *)
Definition isWhiteSpace (cp : N) : bool :=
  ((9 <=? cp)%N && (cp <=? 13)%N)
  || (cp =? 32)%N || (cp =? 160)%N || (cp =? 5760)%N
  || ((8192 <=? cp)%N && (cp <=? 8202)%N)
  || (cp =? 8232)%N || (cp =? 8233)%N || (cp =? 8239)%N
  || (cp =? 8287)%N || (cp =? 12288)%N || (cp =? 65279)%N.

Definition white (sequence : string) : bool :=
  isWhiteSpace (codePointAt sequence).

Fixpoint dropWhile {A : Type} (f : A -> bool) (l : list A) : list A :=
  match l with
  | [] => []
  | x :: rest => if f x then dropWhile f rest else l
  end.

(** [s.trim()]: white space is dropped at the start, then at the
    end. *)
Definition trim (s : string) : string :=
  join (rev (dropWhile white (rev (dropWhile white (codePoints s))))).

(** A string of white space only (the empty string included). *)
Definition blank (s : string) : Prop :=
  Forall (fun sequence => white sequence = true) (codePoints s).

(** A space, an ideographic space and a no-break space. *)
Definition spaces_of_3_kinds : string :=
  (" " ++ fromCodePoint 12288 ++ fromCodePoint 160)%string.

(** [message || fallback], for a [message] that is a string or
    [undefined]. *)
Definition or_else (message : option string) (fallback : string) : string :=
  match message with
  | Some m => if truthy m then m else fallback
  | None => fallback
  end.

End Js.

(** ** Types shared by the dashboard pages *)

(** [database_type: 'postgresql' | 'mysql'] *)
Inductive DatabaseType : Type := postgresql | mysql.

Definition DatabaseType_literal (t : DatabaseType) : string :=
  match t with
  | postgresql => "postgresql"
  | mysql => "mysql"
  end.

(** [status: 'active' | 'inactive'] *)
Inductive ProjectStatus : Type := active | inactive.

Definition ProjectStatus_literal (s : ProjectStatus) : string :=
  match s with
  | active => "active"
  | inactive => "inactive"
  end.

(** ** The new-project wizard *)

Module NewProjectPage.

Record DatabaseConnection : Type := mkDatabaseConnection {
  host : string;
  port : string;
  database : string;
  username : string;
  password : string
}.

Record ProjectData : Type := mkProjectData {
  name : string;
  description : string;
  database_type : DatabaseType
}.

Inductive ConnectionStatus : Type :=
  | status_idle | status_testing | status_success | status_error.

(** The component's [useState] cells. *)
Record State : Type := mkState {
  step : nat;
  projectData : ProjectData;
  connectionData : DatabaseConnection;
  isLoading : bool;
  connectionStatus : ConnectionStatus;
  error : string
}.

Definition initialState : State :=
  {| step := 1;
     projectData :=
       {| name := ""; description := ""; database_type := postgresql |};
     connectionData :=
       {| host := ""; port := ""; database := ""; username := "";
          password := "" |};
     isLoading := false;
     connectionStatus := status_idle;
     error := "" |}.

(** Event handlers are sequences of state-setter calls; each setter takes
    a functional updater [prev => next]. *)
Definition Handler (A : Type) : Type := State -> A * State.

#[global] Instance Handler_ret : MRet Handler := fun A a s => (a, s).

#[global] Instance Handler_bind : MBind Handler :=
  fun A B k m s => let (a, s1) := m s in k a s1.

Definition exec {A : Type} (m : Handler A) (s : State) : State := snd (m s).

Definition setProjectData (f : ProjectData -> ProjectData) : Handler unit :=
  fun s =>
    (tt, {| step := step s;
            projectData := f (projectData s);
            connectionData := connectionData s;
            isLoading := isLoading s;
            connectionStatus := connectionStatus s;
            error := error s |}).

Definition setConnectionData
    (f : DatabaseConnection -> DatabaseConnection) : Handler unit :=
  fun s =>
    (tt, {| step := step s;
            projectData := projectData s;
            connectionData := f (connectionData s);
            isLoading := isLoading s;
            connectionStatus := connectionStatus s;
            error := error s |}).

(** [dbType === 'postgresql' ? '5432' : '3306'] *)
Definition getDefaultPort (dbType : DatabaseType) : string :=
  if Js.strict_eq (DatabaseType_literal dbType) "postgresql"
  then "5432" else "3306".

Definition handleDatabaseTypeChange (type : DatabaseType) : Handler unit :=
  setProjectData (fun prev =>
    {| name := name prev;
       description := description prev;
       database_type := type |}) ;;
  setConnectionData (fun prev =>
    {| host := host prev;
       port := getDefaultPort type;
       database := database prev;
       username := username prev;
       password := password prev |}).

(** The [onChange] handlers of the form inputs. *)
Inductive Field : Type :=
  | field_name | field_description
  | field_host | field_port | field_database | field_username
  | field_password.

Definition onChange (fld : Field) (value : string) : Handler unit :=
  match fld with
  | field_name =>
      setProjectData (fun prev =>
        {| name := value; description := description prev;
           database_type := database_type prev |})
  | field_description =>
      setProjectData (fun prev =>
        {| name := name prev; description := value;
           database_type := database_type prev |})
  | field_host =>
      setConnectionData (fun prev =>
        {| host := value; port := port prev; database := database prev;
           username := username prev; password := password prev |})
  | field_port =>
      setConnectionData (fun prev =>
        {| host := host prev; port := value; database := database prev;
           username := username prev; password := password prev |})
  | field_database =>
      setConnectionData (fun prev =>
        {| host := host prev; port := port prev; database := value;
           username := username prev; password := password prev |})
  | field_username =>
      setConnectionData (fun prev =>
        {| host := host prev; port := port prev; database := database prev;
           username := value; password := password prev |})
  | field_password =>
      setConnectionData (fun prev =>
        {| host := host prev; port := port prev; database := database prev;
           username := username prev; password := value |})
  end.

(** What the user can do on the two form steps. *)
Inductive Event : Type :=
  | Typed (fld : Field) (value : string)
  | SelectedDatabaseType (type : DatabaseType).

Definition handle (ev : Event) : Handler unit :=
  match ev with
  | Typed fld value => onChange fld value
  | SelectedDatabaseType type => handleDatabaseTypeChange type
  end.

Definition run (evs : list Event) : State :=
  fold_left (fun s ev => exec (handle ev) s) evs initialState.

(** *** The remaining handlers of the wizard *)

Definition setStep (n : nat) : Handler unit :=
  fun s =>
    (tt, {| step := n;
            projectData := projectData s;
            connectionData := connectionData s;
            isLoading := isLoading s;
            connectionStatus := connectionStatus s;
            error := error s |}).

Definition setIsLoading (b : bool) : Handler unit :=
  fun s =>
    (tt, {| step := step s;
            projectData := projectData s;
            connectionData := connectionData s;
            isLoading := b;
            connectionStatus := connectionStatus s;
            error := error s |}).

Definition setConnectionStatus (c : ConnectionStatus) : Handler unit :=
  fun s =>
    (tt, {| step := step s;
            projectData := projectData s;
            connectionData := connectionData s;
            isLoading := isLoading s;
            connectionStatus := c;
            error := error s |}).

Definition setError (message : string) : Handler unit :=
  fun s =>
    (tt, {| step := step s;
            projectData := projectData s;
            connectionData := connectionData s;
            isLoading := isLoading s;
            connectionStatus := connectionStatus s;
            error := message |}).

(** The state values a handler's closure sees. *)
Definition rendered : Handler State := fun s => (s, s).

(** [handleProjectSubmit]: a name that trims to the empty string is
    refused with a message, any other name clears the message and moves
    to the second step. *)
Definition handleProjectSubmit : Handler unit :=
  s ← rendered;
  if negb (Js.truthy (Js.trim (name (projectData s))))
  then setError "Project name is required"
  else setError "" ;; setStep 2.

(** The bodies of the two POST requests. *)
Record TestConnectionBody : Type := mkTestConnectionBody {
  tc_database_type : DatabaseType;     (* projectData.database_type *)
  tc_connection : DatabaseConnection   (* ...connectionData *)
}.

Record CreateProjectBody : Type := mkCreateProjectBody {
  cp_project : ProjectData;            (* ...projectData *)
  cp_connection : DatabaseConnection   (* connection: connectionData *)
}.

(** What [await response.json()] makes of the body of a reply, as far
    as a handler reads it: the promise is rejected (no body, or one that
    is not JSON); or the value is [null], and reading a property of it
    throws a [TypeError]; or it is another value, of which the handler
    reads one property. *)
Inductive Body (A : Type) : Type :=
  | unreadable
  | json_null
  | json_value (read : A).

Arguments unreadable {A}.
Arguments json_null {A}.
Arguments json_value {A} read.

(** How an awaited [fetch] ends: a response with [response.ok], a
    response without, or a rejected promise, which lands in [catch].
    Of an ok body [testConnection] reads nothing and
    [handleCreateProject] reads [newProject.id], held here as the text
    the template literal makes of it (["undefined"] when the value has
    no [id]).  Of the body of a response that is not ok both read
    [errorData.message]: a string, or [None] when the value has no
    [message] or a falsy one (a truthy [message] that is not a string
    is left out). *)
Inductive Reply (A : Type) : Type :=
  | replied_ok (body : Body A)
  | replied_error (errorData : Body (option string))
  | threw.

Arguments replied_ok {A} body.
Arguments replied_error {A} errorData.
Arguments threw {A}.

(** What a handler does besides setting state. *)
Inductive Effect : Type :=
  | toast_success (message : string)
  | router_push (href : string)
  | console_error (label : string).

(** [testConnection], up to the awaited [fetch]: the request it sends. *)
Definition testConnection_request : Handler TestConnectionBody :=
  setConnectionStatus status_testing ;;
  setError "" ;;
  s ← rendered;
  mret {| tc_database_type := database_type (projectData s);
          tc_connection := connectionData s |}.

(** [testConnection], from the reply on.  An [errorData] that cannot be
    read, or is [null], throws inside [try]; [catch] then sets the same
    status and its own message. *)
Definition testConnection_reply (r : Reply unit) : Handler (list Effect) :=
  match r with
  | replied_ok _ =>
      setConnectionStatus status_success ;;
      mret [toast_success "Connection successful!"]
  | replied_error (json_value message) =>
      setConnectionStatus status_error ;;
      setError (Js.or_else message "Connection failed") ;;
      mret []
  | replied_error json_null =>
      setConnectionStatus status_error ;;
      (* [errorData.message] throws *)
      setConnectionStatus status_error ;;
      setError "Network error. Please try again." ;;
      mret [console_error "Connection test error:"]
  | replied_error unreadable | threw =>
      setConnectionStatus status_error ;;
      setError "Network error. Please try again." ;;
      mret [console_error "Connection test error:"]
  end.

(** [handleCreateProject], up to the awaited [fetch]. *)
Definition handleCreateProject_request : Handler CreateProjectBody :=
  setIsLoading true ;;
  setError "" ;;
  s ← rendered;
  mret {| cp_project := projectData s; cp_connection := connectionData s |}.

(** [handleCreateProject], from the reply on; [finally] clears the
    loading flag on every path.  An ok reply whose body cannot be read
    throws before the toast; one whose body is [null] throws after it,
    at [newProject.id]. *)
Definition handleCreateProject_reply (r : Reply string)
    : Handler (list Effect) :=
  effects ←
    match r with
    | replied_ok (json_value id) =>
        mret [ toast_success "Project created successfully!";
               router_push ("/dashboard/projects/" ++ id)%string ]
    | replied_ok json_null =>
        setError "Network error. Please try again." ;;
        mret [ toast_success "Project created successfully!";
               console_error "Project creation error:" ]
    | replied_error (json_value message) =>
        setError (Js.or_else message "Failed to create project") ;;
        mret []
    | replied_ok unreadable
    | replied_error unreadable | replied_error json_null | threw =>
        setError "Network error. Please try again." ;;
        mret [console_error "Project creation error:"]
    end;
  setIsLoading false ;;
  mret effects.

(** *** The wizard as the user drives it

    [Flow] adds to the component's state what is outside it: the
    requests under way, the requests sent so far, and the page the
    router was pushed to. *)
Record Flow : Type := mkFlow {
  ui : State;
  testPending : bool;
  createPending : bool;
  tested : list TestConnectionBody;
  posted : list CreateProjectBody;
  pushed : option string
}.

Definition initialFlow : Flow :=
  {| ui := initialState; testPending := false; createPending := false;
     tested := []; posted := []; pushed := None |}.

Inductive Action : Type :=
  | Input (ev : Event)
  | SubmitDetails                      (* form of step 1, [onSubmit] *)
  | ClickTest                          (* "Test Connection" *)
  | TestReplied (r : Reply unit)
  | ClickBack                          (* "Back", [setStep(1)] *)
  | SubmitCreate                       (* form of step 2, [onSubmit] *)
  | CreateReplied (r : Reply string).

Definition onStep1 (fld : Field) : bool :=
  match fld with
  | field_name | field_description => true
  | _ => false
  end.

Definition filled (c : DatabaseConnection) : bool :=
  Js.truthy (host c) && Js.truthy (port c) && Js.truthy (database c)
  && Js.truthy (username c) && Js.truthy (password c).

Definition is_testing (c : ConnectionStatus) : bool :=
  match c with status_testing => true | _ => false end.

Definition is_success (c : ConnectionStatus) : bool :=
  match c with status_success => true | _ => false end.

(** What the rendered page lets happen: the form of step 1 is there
    when [step === 1], that of step 2 when [step === 2]; an input marked
    [required] blocks its form while empty; the test button is
    [disabled] while testing, the create button while
    [isLoading || connectionStatus !== 'success']; a reply needs its
    request; nothing happens on this page once the router has left it. *)
Definition enabled (a : Action) (f : Flow) : bool :=
  bool_decide (pushed f = None) &&
  match a with
  | Input (Typed fld _) =>
      if onStep1 fld then (step (ui f) =? 1)%nat else (step (ui f) =? 2)%nat
  | Input (SelectedDatabaseType _) => (step (ui f) =? 1)%nat
  | SubmitDetails =>
      (step (ui f) =? 1)%nat && Js.truthy (name (projectData (ui f)))
  | ClickTest =>
      (step (ui f) =? 2)%nat && negb (is_testing (connectionStatus (ui f)))
  | TestReplied _ => testPending f
  | ClickBack => (step (ui f) =? 2)%nat
  | SubmitCreate =>
      (step (ui f) =? 2)%nat
      && negb (isLoading (ui f) || negb (is_success (connectionStatus (ui f))))
      && filled (connectionData (ui f))
  | CreateReplied _ => createPending f
  end.

Definition pushed_by (effects : list Effect) : option string :=
  head (omap (fun e =>
                match e with router_push href => Some href | _ => None end)
             effects).

Definition perform (a : Action) (f : Flow) : Flow :=
  match a with
  | Input ev =>
      {| ui := exec (handle ev) (ui f);
         testPending := testPending f; createPending := createPending f;
         tested := tested f; posted := posted f; pushed := pushed f |}
  | SubmitDetails =>
      {| ui := exec handleProjectSubmit (ui f);
         testPending := testPending f; createPending := createPending f;
         tested := tested f; posted := posted f; pushed := pushed f |}
  | ClickTest =>
      let (body, s) := testConnection_request (ui f) in
      {| ui := s;
         testPending := true; createPending := createPending f;
         tested := tested f ++ [body]; posted := posted f;
         pushed := pushed f |}
  | TestReplied r =>
      {| ui := exec (testConnection_reply r) (ui f);
         testPending := false; createPending := createPending f;
         tested := tested f; posted := posted f; pushed := pushed f |}
  | ClickBack =>
      {| ui := exec (setStep 1) (ui f);
         testPending := testPending f; createPending := createPending f;
         tested := tested f; posted := posted f; pushed := pushed f |}
  | SubmitCreate =>
      let (body, s) := handleCreateProject_request (ui f) in
      {| ui := s;
         testPending := testPending f; createPending := true;
         tested := tested f; posted := posted f ++ [body];
         pushed := pushed f |}
  | CreateReplied r =>
      let (effects, s) := handleCreateProject_reply r (ui f) in
      {| ui := s;
         testPending := testPending f; createPending := false;
         tested := tested f; posted := posted f;
         pushed := pushed_by effects |}
  end.

(** An action the page does not offer changes nothing. *)
Definition act (f : Flow) (a : Action) : Flow :=
  if enabled a f then perform a f else f.

Definition flow (actions : list Action) : Flow :=
  fold_left act actions initialFlow.

(** A creation request worth sending: a name that is not blank and a
    connection with every field filled in. *)
Definition sound_body (b : CreateProjectBody) : Prop :=
  ~ Js.blank (name (cp_project b)) /\ filled (cp_connection b) = true.

(** What holds of the wizard whatever the user does. *)
Definition wizard_ok (f : Flow) : Prop :=
  (step (ui f) = 1 \/ step (ui f) = 2)
  /\ (step (ui f) = 2 -> ~ Js.blank (name (projectData (ui f))))
  /\ testPending f = is_testing (connectionStatus (ui f))
  /\ createPending f = isLoading (ui f)
  /\ (connectionStatus (ui f) <> status_idle -> tested f <> [])
  /\ (posted f <> [] -> tested f <> [])
  /\ Forall sound_body (posted f).

(** Retyping the five connection fields, then submitting. *)
Definition retype_and_create (c : DatabaseConnection) : list Action :=
  [ Input (Typed field_host (host c));
    Input (Typed field_port (port c));
    Input (Typed field_database (database c));
    Input (Typed field_username (username c));
    Input (Typed field_password (password c));
    SubmitCreate ].

End NewProjectPage.

(** ** The projects listing *)

Module ProjectsPage.

Record Project : Type := mkProject {
  id : string;
  name : string;
  description : string;
  database_type : DatabaseType;
  status : ProjectStatus;
  created_at : string;
  updated_at : string;
  api_calls_today : Z;
  total_api_calls : Z;
  endpoints_count : Z
}.

(** [statusFilter: 'all' | 'active' | 'inactive'] *)
Inductive StatusFilter : Type := filter_all | filter_active | filter_inactive.

Definition StatusFilter_literal (f : StatusFilter) : string :=
  match f with
  | filter_all => "all"
  | filter_active => "active"
  | filter_inactive => "inactive"
  end.

Record State : Type := mkState {
  projects : list Project;
  filteredProjects : list Project;
  searchQuery : string;
  statusFilter : StatusFilter;
  isLoading : bool
}.

Definition initialState : State :=
  {| projects := []; filteredProjects := []; searchQuery := "";
     statusFilter := filter_all; isLoading := true |}.

Definition mockProjects : list Project :=
  [ {| id := "1"; name := "E-commerce API";
       description := "Product catalog and order management system";
       database_type := postgresql; status := active;
       created_at := "2024-01-15T10:00:00Z";
       updated_at := "2024-01-20T14:30:00Z";
       api_calls_today := 127; total_api_calls := 5432;
       endpoints_count := 8 |};
    {| id := "2"; name := "User Management";
       description := "Authentication and user profiles";
       database_type := mysql; status := active;
       created_at := "2024-01-10T09:15:00Z";
       updated_at := "2024-01-19T16:45:00Z";
       api_calls_today := 89; total_api_calls := 3210;
       endpoints_count := 5 |};
    {| id := "3"; name := "Analytics Dashboard";
       description := "Business metrics and reporting";
       database_type := postgresql; status := inactive;
       created_at := "2024-01-08T11:30:00Z";
       updated_at := "2024-01-15T12:00:00Z";
       api_calls_today := 0; total_api_calls := 1567;
       endpoints_count := 12 |};
    {| id := "4"; name := "Content Management";
       description := "Blog posts and media management";
       database_type := mysql; status := active;
       created_at := "2024-01-05T08:45:00Z";
       updated_at := "2024-01-18T10:20:00Z";
       api_calls_today := 45; total_api_calls := 2890;
       endpoints_count := 6 |};
    {| id := "5"; name := "Inventory System";
       description := "Stock management and tracking";
       database_type := postgresql; status := active;
       created_at := "2024-01-03T14:20:00Z";
       updated_at := "2024-01-17T09:30:00Z";
       api_calls_today := 73; total_api_calls := 4123;
       endpoints_count := 10 |} ].

Section Filtering.

(** [String.prototype.toLowerCase]; the page only relies on it being a
    function of the string that keeps the empty string empty. *)
Variable toLowerCase : string -> string.

(** The body of the second [useEffect]: the value handed to
    [setFilteredProjects]. *)
Definition filterEffect (projects : list Project) (searchQuery : string)
    (statusFilter : StatusFilter) : list Project :=
  let filtered := projects in
  let filtered :=
    if Js.truthy searchQuery then
      List.filter (fun project =>
        Js.includes (toLowerCase (name project)) (toLowerCase searchQuery)
        || Js.includes (toLowerCase (description project))
                       (toLowerCase searchQuery))
        filtered
    else filtered in
  let filtered :=
    if negb (Js.strict_eq (StatusFilter_literal statusFilter) "all") then
      List.filter (fun project =>
        Js.strict_eq (ProjectStatus_literal (status project))
                     (StatusFilter_literal statusFilter))
        filtered
    else filtered in
  filtered.

(** The two passes of [filterEffect] as one test on a project. *)
Definition passes (searchQuery : string) (statusFilter : StatusFilter)
    (project : Project) : bool :=
  (negb (Js.truthy searchQuery)
   || Js.includes (toLowerCase (name project)) (toLowerCase searchQuery)
   || Js.includes (toLowerCase (description project))
                  (toLowerCase searchQuery))
  && (Js.strict_eq (StatusFilter_literal statusFilter) "all"
      || Js.strict_eq (ProjectStatus_literal (status project))
                      (StatusFilter_literal statusFilter)).

(** State changes the page reacts to. *)
Inductive Event : Type :=
  | TimeoutFired
  | SearchInput (value : string)
  | StatusSelected (value : StatusFilter).

Definition handle (ev : Event) (s : State) : State :=
  match ev with
  | TimeoutFired =>
      {| projects := mockProjects; filteredProjects := mockProjects;
         searchQuery := searchQuery s; statusFilter := statusFilter s;
         isLoading := false |}
  | SearchInput value =>
      {| projects := projects s; filteredProjects := filteredProjects s;
         searchQuery := value; statusFilter := statusFilter s;
         isLoading := isLoading s |}
  | StatusSelected value =>
      {| projects := projects s; filteredProjects := filteredProjects s;
         searchQuery := searchQuery s; statusFilter := value;
         isLoading := isLoading s |}
  end.

(** The dependency array [[projects, searchQuery, statusFilter]]: the
    effect runs again when one of them differs from the last render.
    [setProjects] installs a new array, so a fired timeout always counts;
    strings are compared by value. *)
Definition depsChanged (ev : Event) (s s' : State) : bool :=
  match ev with
  | TimeoutFired => true
  | _ =>
      negb (Js.strict_eq (searchQuery s) (searchQuery s'))
      || negb (Js.strict_eq (StatusFilter_literal (statusFilter s))
                            (StatusFilter_literal (statusFilter s')))
  end.

Definition runFilterEffect (s : State) : State :=
  {| projects := projects s;
     filteredProjects :=
       filterEffect (projects s) (searchQuery s) (statusFilter s);
     searchQuery := searchQuery s; statusFilter := statusFilter s;
     isLoading := isLoading s |}.

(** What the page offers.  The timer set on mount fires once, and
    [isLoading] is true until it does; the search box and the status
    select are rendered only once [isLoading] is false. *)
Definition offered (ev : Event) (s : State) : bool :=
  match ev with
  | TimeoutFired => isLoading s
  | SearchInput _ | StatusSelected _ => negb (isLoading s)
  end.

(** The renders an event brings, in order.  The handler's updates are
    rendered first, with [filteredProjects] as the handler left it; the
    filter effect runs after that render when one of its dependencies
    changed, and the list it sets is rendered next.  (When a setter is
    handed the value the cell holds, React skips the render; the state
    listed for it then repeats the one before.) *)
Definition renders (s : State) (ev : Event) : list State :=
  let s' := handle ev s in
  if depsChanged ev s s' then [s'; runFilterEffect s'] else [s'].

(** The state an event leaves once its renders are over; an event the
    page does not offer changes nothing. *)
Definition update (s : State) (ev : Event) : State :=
  if offered ev s then List.last (renders s ev) s else s.

(** Mounting: after the first render the effects run; the filter effect
    sets the list, which is rendered. *)
Definition mounted : State := runFilterEffect initialState.

Definition run (evs : list Event) : State := fold_left update evs mounted.

(** Every state the component is rendered with, in order. *)
Fixpoint frames_from (s : State) (evs : list Event) : list State :=
  match evs with
  | [] => []
  | ev :: rest =>
      (if offered ev s then renders s ev else [])
      ++ frames_from (update s ev) rest
  end.

Definition frames (evs : list Event) : list State :=
  initialState :: mounted :: frames_from mounted evs.

(** The listing in the specification's words: a project is shown when
    its name or description contains the query, case folded, and its
    status is the selected one unless the selection is ['all']. *)
Definition contains_ci (text query : string) : Prop :=
  Js.occurs_in (toLowerCase query) (toLowerCase text).

Definition shown (searchQuery : string) (statusFilter : StatusFilter)
    (project : Project) : Prop :=
  (contains_ci (name project) searchQuery
   \/ contains_ci (description project) searchQuery)
  /\ (statusFilter <> filter_all ->
      ProjectStatus_literal (status project)
      = StatusFilter_literal statusFilter).

End Filtering.

(** *** What the page renders from its state *)

(** The grid of project cards, or the card shown in its place. *)
Inductive Grid : Type :=
  | cards (listed : list Project)
  | empty_card (title hint : string) (createLink : bool).

(** The expression under "Projects Grid" in the page's [return]:
    [filteredProjects.length > 0 ? ... : ...], with the title, the hint
    and the "Create Project" link of the empty card. *)
Definition renderGrid (s : State) : Grid :=
  if (0 <? length (filteredProjects s))%nat then cards (filteredProjects s)
  else
    let filtering :=
      Js.truthy (searchQuery s)
      || negb (Js.strict_eq (StatusFilter_literal (statusFilter s)) "all") in
    empty_card
      (if filtering then "No projects found" else "No projects yet")
      (if filtering then "Try adjusting your search or filters"
       else "Get started by creating your first database project")
      (negb (Js.truthy (searchQuery s))
       && Js.strict_eq (StatusFilter_literal (statusFilter s)) "all").

(** What the component returns: the spinner alone while [isLoading],
    otherwise the page with the search box, the status select and the
    grid. *)
Inductive View : Type :=
  | spinner
  | listing (searchBox : string) (statusSelect : StatusFilter) (grid : Grid).

Definition render (s : State) : View :=
  if isLoading s then spinner
  else listing (searchQuery s) (statusFilter s) (renderGrid s).

(** The "Active Projects" figure of the summary:
    [projects.filter(p => p.status === 'active').length]. *)
Definition activeProjects (projects : list Project) : nat :=
  length (List.filter
            (fun p => Js.strict_eq (ProjectStatus_literal (status p)) "active")
            projects).

End ProjectsPage.

(** ** The registry schema (init SQL: tables [users] and [projects])

    Rows are records; a column declared [NOT NULL] has its plain type, a
    nullable one an [option].  A statement either yields the new database
    or is refused with the error the constraint raises, leaving the
    database as it was. *)

Module InitSql.

Definition uuid : Type := N.
Definition timestamptz : Type := Z.

Inductive sql_error : Type :=
  | not_null_violation (column : string)
  | string_data_right_truncation (column : string)
  | unique_violation (constraint : string)
  | foreign_key_violation (constraint : string).

Definition result (A : Type) : Type := sql_error + A.

#[global] Instance result_ret : MRet result := fun A a => inr a.

#[global] Instance result_bind : MBind result :=
  fun A B k m => match m with inl e => inl e | inr a => k a end.

(** What a statement reads from its session: [CURRENT_TIMESTAMP] and the
    next value of [uuid_generate_v4()]. *)
Record env : Type := mkEnv {
  CURRENT_TIMESTAMP : timestamptz;
  uuid_generate_v4 : uuid
}.

Definition all_spaces (s : string) : bool :=
  forallb (Ascii.eqb " "%char) (list_ascii_of_string s).

(** Text values are held in UTF-8, the encoding of the database. *)
Definition continuation : ascii -> bool := Utf8.continuation.

(** [char_length(s)]: the number of characters of [s]. *)
Fixpoint char_length (s : string) : nat :=
  match s with
  | EmptyString => 0
  | String a rest =>
      if continuation a then char_length rest else S (char_length rest)
  end.

(** The first [n] characters of [s], and what follows them. *)
Fixpoint clip (n : nat) (s : string) : string * string :=
  match s with
  | EmptyString => (EmptyString, EmptyString)
  | String a rest =>
      if continuation a then
        let (kept, excess) := clip n rest in (String a kept, excess)
      else
        match n with
        | 0 => (EmptyString, s)
        | S n' => let (kept, excess) := clip n' rest in (String a kept, excess)
        end
  end.

(** Storing into [VARCHAR(n)], where [n] counts characters: a value of
    at most [n] bytes has at most [n] characters and is stored as it is;
    a longer one is clipped after its first [n] characters and refused
    unless what is cut off is spaces only (so a value of at most [n]
    characters, whatever its bytes, is stored as it is). *)
Definition varchar (n : nat) (column : string) (v : string) : result string :=
  if (String.length v <=? n)%nat then inr v
  else let (kept, excess) := clip n v in
       if all_spaces excess then inr kept
       else inl (string_data_right_truncation column).

Definition varchar_null (n : nat) (column : string) (v : option string)
    : result (option string) :=
  match v with
  | None => inr None
  | Some s => s' ← varchar n column s; mret (Some s')
  end.

Definition not_null {A : Type} (column : string) (v : option A) : result A :=
  match v with
  | Some a => inr a
  | None => inl (not_null_violation column)
  end.

(** *** Table [users] *)
Module users.

Record row : Type := mkRow {
  id : uuid;               (* UUID PRIMARY KEY DEFAULT uuid_generate_v4() *)
  email : string;                     (* VARCHAR(255) UNIQUE NOT NULL *)
  hashed_password : string;           (* VARCHAR(255) NOT NULL *)
  full_name : option string;          (* VARCHAR(255) *)
  is_active : option bool;            (* BOOLEAN DEFAULT true *)
  is_superuser : option bool;         (* BOOLEAN DEFAULT false *)
  created_at : option timestamptz;    (* DEFAULT CURRENT_TIMESTAMP *)
  updated_at : option timestamptz     (* DEFAULT CURRENT_TIMESTAMP *)
}.

(** The column list of an [INSERT]: [None] is a column left out (its
    [DEFAULT] applies, which is [NULL] where none is declared). *)
Record values : Type := mkValues {
  v_id : option uuid;
  v_email : option string;
  v_hashed_password : option string;
  v_full_name : option string;
  v_is_active : option bool;
  v_is_superuser : option bool;
  v_created_at : option timestamptz;
  v_updated_at : option timestamptz
}.

Definition build (e : env) (v : values) : result row :=
  email' ← not_null "email" (v_email v) ≫= varchar 255 "email";
  hashed_password' ←
    not_null "hashed_password" (v_hashed_password v)
    ≫= varchar 255 "hashed_password";
  full_name' ← varchar_null 255 "full_name" (v_full_name v);
  mret {| id := default (uuid_generate_v4 e) (v_id v);
          email := email';
          hashed_password := hashed_password';
          full_name := full_name';
          is_active := Some (default true (v_is_active v));
          is_superuser := Some (default false (v_is_superuser v));
          created_at :=
            Some (default (CURRENT_TIMESTAMP e) (v_created_at v));
          updated_at :=
            Some (default (CURRENT_TIMESTAMP e) (v_updated_at v)) |}.

Definition pkey_taken (new : row) (t : list row) : bool :=
  existsb (fun r => N.eqb (id r) (id new)) t.

Definition email_taken (new : row) (t : list row) : bool :=
  existsb (fun r => String.eqb (email r) (email new)) t.

Definition insert (e : env) (v : values) (t : list row) : result (list row) :=
  new ← build e v;
  if pkey_taken new t then inl (unique_violation "users_pkey")
  else if email_taken new t then inl (unique_violation "users_email_key")
  else mret (t ++ [new]).

End users.

(** *** Table [projects] *)
Module projects.

Record row : Type := mkRow {
  id : uuid;               (* UUID PRIMARY KEY DEFAULT uuid_generate_v4() *)
  name : string;                      (* VARCHAR(255) NOT NULL *)
  description : option string;        (* TEXT *)
  database_type : string;             (* VARCHAR(50) NOT NULL *)
  database_name : string;             (* VARCHAR(255) NOT NULL *)
  container_id : option string;       (* VARCHAR(255) *)
  connection_string : option string;  (* TEXT *)
  owner_id : uuid;   (* UUID NOT NULL REFERENCES users(id) ON DELETE CASCADE *)
  created_at : option timestamptz;    (* DEFAULT CURRENT_TIMESTAMP *)
  updated_at : option timestamptz     (* DEFAULT CURRENT_TIMESTAMP *)
}.

Record values : Type := mkValues {
  v_id : option uuid;
  v_name : option string;
  v_description : option string;
  v_database_type : option string;
  v_database_name : option string;
  v_container_id : option string;
  v_connection_string : option string;
  v_owner_id : option uuid;
  v_created_at : option timestamptz;
  v_updated_at : option timestamptz
}.

Definition build (e : env) (v : values) : result row :=
  name' ← not_null "name" (v_name v) ≫= varchar 255 "name";
  database_type' ←
    not_null "database_type" (v_database_type v)
    ≫= varchar 50 "database_type";
  database_name' ←
    not_null "database_name" (v_database_name v)
    ≫= varchar 255 "database_name";
  container_id' ← varchar_null 255 "container_id" (v_container_id v);
  owner_id' ← not_null "owner_id" (v_owner_id v);
  mret {| id := default (uuid_generate_v4 e) (v_id v);
          name := name';
          description := v_description v;
          database_type := database_type';
          database_name := database_name';
          container_id := container_id';
          connection_string := v_connection_string v;
          owner_id := owner_id';
          created_at :=
            Some (default (CURRENT_TIMESTAMP e) (v_created_at v));
          updated_at :=
            Some (default (CURRENT_TIMESTAMP e) (v_updated_at v)) |}.

(** The [SET] list of an [UPDATE]: [None] leaves the column alone,
    [Some None] is [SET c = NULL], [Some (Some x)] is [SET c = x]. *)
Record assignments : Type := mkAssignments {
  set_id : option (option uuid);
  set_name : option (option string);
  set_description : option (option string);
  set_database_type : option (option string);
  set_database_name : option (option string);
  set_container_id : option (option string);
  set_connection_string : option (option string);
  set_owner_id : option (option uuid);
  set_created_at : option (option timestamptz);
  set_updated_at : option (option timestamptz)
}.

Definition assign (a : assignments) (old : row) : result row :=
  id' ← not_null "id" (default (Some (id old)) (set_id a));
  name' ←
    not_null "name" (default (Some (name old)) (set_name a))
    ≫= varchar 255 "name";
  database_type' ←
    not_null "database_type"
      (default (Some (database_type old)) (set_database_type a))
    ≫= varchar 50 "database_type";
  database_name' ←
    not_null "database_name"
      (default (Some (database_name old)) (set_database_name a))
    ≫= varchar 255 "database_name";
  container_id' ←
    varchar_null 255 "container_id"
      (default (container_id old) (set_container_id a));
  owner_id' ←
    not_null "owner_id" (default (Some (owner_id old)) (set_owner_id a));
  mret {| id := id';
          name := name';
          description := default (description old) (set_description a);
          database_type := database_type';
          database_name := database_name';
          container_id := container_id';
          connection_string :=
            default (connection_string old) (set_connection_string a);
          owner_id := owner_id';
          created_at := default (created_at old) (set_created_at a);
          updated_at := default (updated_at old) (set_updated_at a) |}.

(** Trigger [update_projects_updated_at], [BEFORE UPDATE ... FOR EACH ROW]:
    [NEW.updated_at = CURRENT_TIMESTAMP]. *)
Definition update_updated_at_column (e : env) (new : row) : row :=
  {| id := id new;
     name := name new;
     description := description new;
     database_type := database_type new;
     database_name := database_name new;
     container_id := container_id new;
     connection_string := connection_string new;
     owner_id := owner_id new;
     created_at := created_at new;
     updated_at := Some (CURRENT_TIMESTAMP e) |}.

(** [PRIMARY KEY (id)] *)
Definition pkey_taken (new : row) (others : list row) : bool :=
  existsb (fun r => N.eqb (id r) (id new)) others.

(** [UNIQUE(owner_id, name)] *)
Definition owner_id_name_taken (new : row) (others : list row) : bool :=
  existsb (fun r => N.eqb (owner_id r) (owner_id new)
                    && String.eqb (name r) (name new)) others.

(** [owner_id ... REFERENCES users(id)] *)
Definition owner_exists (new : row) (us : list users.row) : bool :=
  existsb (fun u => N.eqb (users.id u) (owner_id new)) us.

(** The checks a new or changed row passes against the other rows. *)
Definition check (us : list users.row) (others : list row) (new : row)
    : result row :=
  if pkey_taken new others then inl (unique_violation "projects_pkey")
  else if owner_id_name_taken new others
       then inl (unique_violation "projects_owner_id_name_key")
  else if negb (owner_exists new us)
       then inl (foreign_key_violation "projects_owner_id_fkey")
  else mret new.

Definition insert (e : env) (us : list users.row) (v : values) (t : list row)
    : result (list row) :=
  new ← build e v ≫= check us t;
  mret (t ++ [new]).

(** [UPDATE projects SET ... WHERE ...], row by row: [before] holds the
    rows already visited, [after] the rows still to visit. *)
Fixpoint update_rows (e : env) (us : list users.row) (a : assignments)
    (where_ : row -> bool) (before after : list row) : result (list row) :=
  match after with
  | [] => mret before
  | old :: rest =>
      if where_ old then
        assigned ← assign a old;
        new ← check us (before ++ rest) (update_updated_at_column e assigned);
        update_rows e us a where_ (before ++ [new]) rest
      else update_rows e us a where_ (before ++ [old]) rest
  end.

Definition update (e : env) (us : list users.row) (a : assignments)
    (where_ : row -> bool) (t : list row) : result (list row) :=
  update_rows e us a where_ [] t.

Definition delete (where_ : row -> bool) (t : list row) : list row :=
  List.filter (fun r => negb (where_ r)) t.

End projects.

Record db : Type := mkDb {
  users_table : list users.row;
  projects_table : list projects.row
}.

Definition empty_db : db := {| users_table := []; projects_table := [] |}.

Inductive statement : Type :=
  | INSERT_INTO_users (v : users.values)
  | DELETE_FROM_users (where_ : users.row -> bool)
  | INSERT_INTO_projects (v : projects.values)
  | UPDATE_projects (a : projects.assignments) (where_ : projects.row -> bool)
  | DELETE_FROM_projects (where_ : projects.row -> bool).

Definition execute (e : env) (st : statement) (d : db) : result db :=
  match st with
  | INSERT_INTO_users v =>
      us ← users.insert e v (users_table d);
      mret {| users_table := us; projects_table := projects_table d |}
  | DELETE_FROM_users where_ =>
      (* ON DELETE CASCADE: the projects of a deleted user go with it *)
      let us := List.filter (fun u => negb (where_ u)) (users_table d) in
      let gone := List.filter where_ (users_table d) in
      mret {| users_table := us;
              projects_table :=
                projects.delete
                  (fun p => existsb
                     (fun u => N.eqb (users.id u) (projects.owner_id p)) gone)
                  (projects_table d) |}
  | INSERT_INTO_projects v =>
      ps ← projects.insert e (users_table d) v (projects_table d);
      mret {| users_table := users_table d; projects_table := ps |}
  | UPDATE_projects a where_ =>
      ps ← projects.update e (users_table d) a where_ (projects_table d);
      mret {| users_table := users_table d; projects_table := ps |}
  | DELETE_FROM_projects where_ =>
      mret {| users_table := users_table d;
              projects_table := projects.delete where_ (projects_table d) |}
  end.

(** A session: statements run in order, each with its own clock reading
    and identifier; a refused statement changes nothing. *)
Definition run_statement (d : db) (c : env * statement) : db :=
  match execute (fst c) (snd c) d with
  | inr d' => d'
  | inl _ => d
  end.

Definition run (session : list (env * statement)) : db :=
  fold_left run_statement session empty_db.

(** "For every owner, no two project records of that owner have the same
    name": two rows at different positions with one owner differ in name. *)
Definition name_unique_per_owner (t : list projects.row) : Prop :=
  forall (i j : nat) (r1 r2 : projects.row),
    t !! i = Some r1 -> t !! j = Some r2 -> i <> j ->
    projects.owner_id r1 = projects.owner_id r2 ->
    projects.name r1 <> projects.name r2.

(** The pair of columns that [UNIQUE(owner_id, name)] indexes. *)
Definition owner_id_name (r : projects.row) : uuid * string :=
  (projects.owner_id r, projects.name r).

(** "The database kind is one of exactly two fixed values." *)
Definition database_kind_enum (t : list projects.row) : Prop :=
  forall r : projects.row, r ∈ t ->
    projects.database_type r = "postgresql"
    \/ projects.database_type r = "mysql".

(** A session to run the statements on: one user, then projects of
    that user. *)
Definition session_env (n : N) : env :=
  {| CURRENT_TIMESTAMP := Z.of_N n; uuid_generate_v4 := n |}.

Definition alice : users.values :=
  {| users.v_id := Some 1%N;
     users.v_email := Some "alice@example.com";
     users.v_hashed_password := Some "$2b$12$KIXQJ";
     users.v_full_name := Some "Alice";
     users.v_is_active := None; users.v_is_superuser := None;
     users.v_created_at := None; users.v_updated_at := None |}.

Definition project_of_alice (name kind : string) : projects.values :=
  {| projects.v_id := None;
     projects.v_name := Some name;
     projects.v_description := None;
     projects.v_database_type := Some kind;
     projects.v_database_name := Some "appdb";
     projects.v_container_id := None;
     projects.v_connection_string := None;
     projects.v_owner_id := Some 1%N;
     projects.v_created_at := None; projects.v_updated_at := None |}.

Definition rename_to (name : string) : projects.assignments :=
  {| projects.set_id := None;
     projects.set_name := Some (Some name);
     projects.set_description := None;
     projects.set_database_type := None;
     projects.set_database_name := None;
     projects.set_container_id := None;
     projects.set_connection_string := None;
     projects.set_owner_id := None;
     projects.set_created_at := None;
     projects.set_updated_at := None |}.

Definition alice_with_shop : db :=
  run [ (session_env 10, INSERT_INTO_users alice);
        (session_env 11,
         INSERT_INTO_projects (project_of_alice "shop" "postgresql")) ].

(** A text of [n] characters of three bytes each. *)
Definition kana (n : nat) : string := String.concat "" (repeat "あ" n).

(** What a [VARCHAR] column makes of a value it accepts: the value
    itself, or the value without spaces at its end. *)
Definition stored_as (given stored : string) : Prop :=
  exists pad : string,
    given = (stored ++ pad)%string /\ all_spaces pad = true.

(** *** What the constraints of the script say of a database *)

(** [PRIMARY KEY] of [projects] and of [users], [UNIQUE] on
    [users.email]. *)
Definition projects_pkey_unique (t : list projects.row) : Prop :=
  NoDup (projects.id <$> t).

Definition users_pkey_unique (t : list users.row) : Prop :=
  NoDup (users.id <$> t).

Definition users_email_unique (t : list users.row) : Prop :=
  NoDup (users.email <$> t).

(** [owner_id ... REFERENCES users(id)]: every project has its owner
    among the users. *)
Definition owner_references_user (d : db) : Prop :=
  forall p : projects.row, p ∈ projects_table d ->
    exists u : users.row,
      u ∈ users_table d /\ users.id u = projects.owner_id p.



(** What an accepted [UPDATE] makes of one row: a row outside the
    [WHERE] clause stays, a row inside it is assigned and then stamped by
    the trigger. *)
Definition updated_to (e : env) (a : projects.assignments)
    (where_ : projects.row -> bool) (old new : projects.row) : Prop :=
  if where_ old
  then exists assigned : projects.row,
         projects.assign a old = inr assigned
         /\ new = projects.update_updated_at_column e assigned
  else new = old.

(** The users a [DELETE FROM users] removes. *)
Definition deleted_owner (where_ : users.row -> bool) (d : db)
    (p : projects.row) : Prop :=
  exists u : users.row,
    u ∈ users_table d /\ where_ u = true
    /\ users.id u = projects.owner_id p.

End InitSql.

(** ** The registry schema, continued: table [api_keys]

    The third table of the script refers to [projects] as [projects]
    refers to [users].  A statement on the first two tables runs as in
    [InitSql] and then has its consequences on the keys. *)

Module ApiKeys.
Import InitSql.

Record row : Type := mkRow {
  id : uuid;               (* UUID PRIMARY KEY DEFAULT uuid_generate_v4() *)
  project_id : uuid;
    (* UUID NOT NULL REFERENCES projects(id) ON DELETE CASCADE *)
  key_name : string;                  (* VARCHAR(255) NOT NULL *)
  key_hash : string;                  (* VARCHAR(255) NOT NULL *)
  permissions : option string;        (* JSONB DEFAULT '{}' *)
  last_used_at : option timestamptz;
  created_at : option timestamptz;    (* DEFAULT CURRENT_TIMESTAMP *)
  expires_at : option timestamptz
}.

Record values : Type := mkValues {
  v_id : option uuid;
  v_project_id : option uuid;
  v_key_name : option string;
  v_key_hash : option string;
  v_permissions : option string;
  v_last_used_at : option timestamptz;
  v_created_at : option timestamptz;
  v_expires_at : option timestamptz
}.

Definition build (e : env) (v : values) : result row :=
  project_id' ← not_null "project_id" (v_project_id v);
  key_name' ← not_null "key_name" (v_key_name v) ≫= varchar 255 "key_name";
  key_hash' ← not_null "key_hash" (v_key_hash v) ≫= varchar 255 "key_hash";
  mret {| id := default (uuid_generate_v4 e) (v_id v);
          project_id := project_id';
          key_name := key_name';
          key_hash := key_hash';
          permissions := Some (default "{}" (v_permissions v));
          last_used_at := v_last_used_at v;
          created_at :=
            Some (default (CURRENT_TIMESTAMP e) (v_created_at v));
          expires_at := v_expires_at v |}.

Definition pkey_taken (new : row) (t : list row) : bool :=
  existsb (fun k => N.eqb (id k) (id new)) t.

(** [project_id ... REFERENCES projects(id)] *)
Definition references (ps : list projects.row) (k : row) : bool :=
  existsb (fun p => N.eqb (projects.id p) (project_id k)) ps.

Definition insert (e : env) (ps : list projects.row) (v : values)
    (t : list row) : result (list row) :=
  new ← build e v;
  if pkey_taken new t then inl (unique_violation "api_keys_pkey")
  else if negb (references ps new)
       then inl (foreign_key_violation "api_keys_project_id_fkey")
  else mret (t ++ [new]).

(** [ON DELETE CASCADE]: the keys of the projects that went. *)
Definition cascade (gone : list projects.row) (t : list row) : list row :=
  List.filter (fun k => negb (references gone k)) t.

Record schema : Type := mkSchema {
  registry : db;
  api_keys_table : list row
}.

Definition empty_schema : schema :=
  {| registry := empty_db; api_keys_table := [] |}.

Inductive statement : Type :=
  | on_registry (st : InitSql.statement)
  | INSERT_INTO_api_keys (v : values)
  | DELETE_FROM_api_keys (where_ : row -> bool).

(** The projects a statement on the first two tables deletes. *)
Definition projects_gone (st : InitSql.statement) (d : db)
    : list projects.row :=
  match st with
  | DELETE_FROM_projects where_ => List.filter where_ (projects_table d)
  | DELETE_FROM_users where_ =>
      let gone := List.filter where_ (users_table d) in
      List.filter
        (fun p => existsb
           (fun u => N.eqb (users.id u) (projects.owner_id p)) gone)
        (projects_table d)
  | _ => []
  end.

Definition execute (e : env) (st : statement) (s : schema) : result schema :=
  match st with
  | on_registry st0 =>
      d' ← InitSql.execute e st0 (registry s);
      let keys := cascade (projects_gone st0 (registry s)) (api_keys_table s) in
      match st0 with
      | UPDATE_projects _ _ =>
          (* the reference declares no action on update: no key may be
             left without its project *)
          if forallb (references (projects_table d')) keys
          then mret {| registry := d'; api_keys_table := keys |}
          else inl (foreign_key_violation "api_keys_project_id_fkey")
      | _ => mret {| registry := d'; api_keys_table := keys |}
      end
  | INSERT_INTO_api_keys v =>
      ks ← insert e (projects_table (registry s)) v (api_keys_table s);
      mret {| registry := registry s; api_keys_table := ks |}
  | DELETE_FROM_api_keys where_ =>
      mret {| registry := registry s;
              api_keys_table :=
                List.filter (fun k => negb (where_ k)) (api_keys_table s) |}
  end.

Definition run_statement (s : schema) (c : env * statement) : schema :=
  match execute (fst c) (snd c) s with
  | inr s' => s'
  | inl _ => s
  end.

Definition run (session : list (env * statement)) : schema :=
  fold_left run_statement session empty_schema.

(** Every key has its project among the projects, and through it its
    owner among the users. *)
Definition key_references_project (s : schema) : Prop :=
  forall k : row, k ∈ api_keys_table s ->
    exists p : projects.row,
      p ∈ projects_table (registry s) /\ projects.id p = project_id k.

Definition key_has_owner (s : schema) : Prop :=
  forall k : row, k ∈ api_keys_table s ->
    exists (p : projects.row) (u : users.row),
      p ∈ projects_table (registry s) /\ projects.id p = project_id k
      /\ u ∈ users_table (registry s) /\ users.id u = projects.owner_id p.

(** A user with a project and a key to it. *)
Definition key_of_shop : values :=
  {| v_id := None; v_project_id := Some 11%N;
     v_key_name := Some "ci"; v_key_hash := Some "9f86d081884c7d65";
     v_permissions := None; v_last_used_at := None;
     v_created_at := None; v_expires_at := None |}.

Definition alice_with_key : schema :=
  run [ (session_env 10, on_registry (INSERT_INTO_users alice));
        (session_env 11,
         on_registry
           (INSERT_INTO_projects (project_of_alice "shop" "postgresql")));
        (session_env 12, INSERT_INTO_api_keys key_of_shop) ].

End ApiKeys.

(** ** Type mapper *)

Module TypeMapper.

(** Modelled from the spec: the two database kinds a project can have
    (the mapper's dialects); the service code is missing. *)
Inductive Dialect : Type := PostgreSQL | MySQL.

(** Modelled from the spec: the canonical types of section 4.2,
    [Int64, Float64, Bool, Text, Timestamp, JSON, Binary, Enum(values)]. *)
Inductive CanonicalType : Type :=
  | Int64 | Float64 | Bool | Text | Timestamp | JSON | Binary
  | Enum (values : list string).

Inductive UnsupportedTypeError : Type :=
  | mkUnsupportedTypeError (dialect : Dialect) (rawType : string).

Section Mapping.

(** The per-dialect mapping table and the test for raw types with
    structural implications (array, composite) belong to the missing
    service; the mapper is stated for any choice of them. *)
Variable mapping_table : Dialect -> list (string * CanonicalType).
Variable structural : Dialect -> string -> bool.

Definition lookup_type (dialect : Dialect) (rawType : string)
    : option CanonicalType :=
  snd <$> List.find (fun entry => String.eqb (fst entry) rawType)
                    (mapping_table dialect).

(** Modelled from the spec: [mapType(dialect, rawType)] of section 4.2,
    whose code is missing.  Table-driven; an unknown type maps to the
    opaque/string fallback [Text], unless the type is structural, which
    fails. *)
Definition mapType (dialect : Dialect) (rawType : string)
    : UnsupportedTypeError + CanonicalType :=
  if structural dialect rawType
  then inl (mkUnsupportedTypeError dialect rawType)
  else inr (default Text (lookup_type dialect rawType)).

End Mapping.

(** A small table and structural test to run the mapper on. *)
Definition sample_table (dialect : Dialect) : list (string * CanonicalType) :=
  match dialect with
  | PostgreSQL =>
      [ ("integer", Int64); ("bigint", Int64); ("numeric", Float64);
        ("double precision", Float64); ("boolean", Bool); ("text", Text);
        ("character varying", Text);
        ("timestamp with time zone", Timestamp); ("jsonb", JSON);
        ("bytea", Binary) ]
  | MySQL =>
      [ ("int", Int64); ("bigint", Int64); ("decimal", Float64);
        ("double", Float64); ("tinyint(1)", Bool); ("varchar", Text);
        ("text", Text); ("datetime", Timestamp); ("json", JSON);
        ("blob", Binary) ]
  end.

Definition sample_structural (dialect : Dialect) (rawType : string) : bool :=
  match dialect with
  | PostgreSQL =>
      String.eqb rawType "ARRAY" || String.eqb rawType "USER-DEFINED"
      || Js.includes rawType "[]"
  | MySQL => false
  end.

End TypeMapper.

(** ** Introspection and endpoint synthesis *)

Module Synthesis.
Import TypeMapper.

(** Modelled from the spec: the Column and Table descriptors and the
    SchemaSnapshot of section 3; the introspector's code is missing. *)
Record Column : Type := mkColumn {
  col_name : string;
  raw_type : string;
  mapped_type : CanonicalType;
  nullable : bool;
  is_primary_key : bool;
  is_foreign_key : bool;
  references_table : option string
}.

Record Table : Type := mkTable {
  tbl_name : string;
  columns : list Column;
  constraints : list string
}.

Record SchemaSnapshot : Type := mkSchemaSnapshot {
  tables : list Table;
  skipped : list (string * string)     (* table, column left out *)
}.

(** Modelled from the spec: what one reading of the live catalog returns
    (section 4.1: for each table the column name, declared type,
    nullability and constraint membership); the database driver calls
    are missing. *)
Record CatalogColumn : Type := mkCatalogColumn {
  cat_name : string;
  cat_declared_type : string;
  cat_nullable : bool;
  cat_primary_key : bool;
  cat_foreign_key : option string       (* target table *)
}.

Record CatalogTable : Type := mkCatalogTable {
  cat_schema : string;
  cat_table : string;
  cat_columns : list CatalogColumn;
  cat_constraints : list string
}.

Record Database : Type := mkDatabase {
  reachable : bool;
  dialect : Dialect;
  catalog : list CatalogTable
}.

(** Modelled from the spec: the failure of section 4.1 that aborts an
    introspection.  An unsupported column does not: it is skipped and
    noted in the snapshot. *)
Inductive IntrospectError : Type := ConnectionError.

(** Modelled from the spec: the filter operators of section 4.3 (equals,
    not-equals, greater-than, less-than, in-set, pattern-match). *)
Inductive Operator : Type := op_eq | op_ne | op_gt | op_lt | op_in | op_like.

#[global] Instance Operator_eq_dec : EqDecision Operator.
Proof. solve_decision. Defined.

(** Modelled from the spec: the operations of a resource (section 4.3:
    list, get-by-id, create, update, delete). *)
Inductive Operation : Type :=
  | op_list | op_get | op_create | op_update | op_delete.

#[global] Instance Operation_eq_dec : EqDecision Operation.
Proof. solve_decision. Defined.

(** Modelled from the spec: one entry of the field-to-column mapping,
    with the operators the field's filters may use. *)
Record FieldDefinition : Type := mkFieldDefinition {
  fd_column : string;
  fd_type : CanonicalType;
  fd_operators : list Operator
}.

(** Modelled from the spec: the ResourceDefinition of section 3, "the
    compiled filter/sort grammar and field-to-column mapping", and the
    routing table of section 9, "map of resource name -> compiled
    definition". *)
Record ResourceDefinition : Type := mkResourceDefinition {
  rd_table : string;
  rd_fields : gmap string FieldDefinition;
  rd_operations : list Operation;
  rd_default_limit : nat;
  rd_max_limit : nat
}.

Abbreviation RoutingTable := (gmap string ResourceDefinition).

Section Pipeline.

Variable mapping_table : Dialect -> list (string * CanonicalType).
Variable structural : Dialect -> string -> bool.
(** Which catalog schemas are the engine's own. *)
Variable system_schema : Dialect -> string -> bool.
(** The operators a column's field accepts, and the fixed maximum page
    size: both are left to the missing synthesizer. *)
Variable operators_for : Column -> list Operator.
Variable max_limit : nat.

(** Modelled from the spec: one catalog column, mapped by the type
    mapper, or left out when its type is refused (section 4.1, "skip the
    unsupported column, continue"). *)
Definition introspect_column (d : Dialect) (c : CatalogColumn)
    : option Column :=
  match mapType mapping_table structural d (cat_declared_type c) with
  | inl _ => None
  | inr t =>
      Some {| col_name := cat_name c;
              raw_type := cat_declared_type c;
              mapped_type := t;
              nullable := cat_nullable c;
              is_primary_key := cat_primary_key c;
              is_foreign_key := bool_decide (is_Some (cat_foreign_key c));
              references_table := cat_foreign_key c |}
  end.

Definition introspect_table (d : Dialect) (t : CatalogTable) : Table :=
  {| tbl_name := cat_table t;
     columns := omap (introspect_column d) (cat_columns t);
     constraints := cat_constraints t |}.

Definition skipped_columns (d : Dialect) (t : CatalogTable)
    : list (string * string) :=
  (fun c => (cat_table t, cat_name c))
    <$> filter (fun c => introspect_column d c = None) (cat_columns t).

Definition user_tables (db : Database) : list CatalogTable :=
  filter (fun t => system_schema (dialect db) (cat_schema t) = false)
         (catalog db).

(** Modelled from the spec: [introspect(connection)] of section 4.1,
    whose code is missing.  Fails when the database is unreachable;
    enumerates the user tables outside the system schemas; a column of
    an unsupported type is skipped and noted, the rest is returned. *)
Definition introspect (db : Database) : IntrospectError + SchemaSnapshot :=
  if reachable db then
    inr {| tables := introspect_table (dialect db) <$> user_tables db;
           skipped := user_tables db ≫= skipped_columns (dialect db) |}
  else inl ConnectionError.

Definition field_of (c : Column) : FieldDefinition :=
  {| fd_column := col_name c;
     fd_type := mapped_type c;
     fd_operators := operators_for c |}.

Definition resource_of (t : Table) : ResourceDefinition :=
  {| rd_table := tbl_name t;
     rd_fields :=
       list_to_map ((fun c => (col_name c, field_of c)) <$> columns t);
     rd_operations := [op_list; op_get; op_create; op_update; op_delete];
     rd_default_limit := 50;
     rd_max_limit := max_limit |}.

(** Modelled from the spec: [synthesize(snapshot)] of section 4.3, whose
    code is missing: one resource per table, keyed by the table's name. *)
Definition synthesize (snapshot : SchemaSnapshot) : RoutingTable :=
  list_to_map ((fun t => (tbl_name t, resource_of t)) <$> tables snapshot).

End Pipeline.

(** An operator assignment that agrees with the spec's [orders] example:
    a key column takes equals and in-set, a numeric or temporal column
    equals, greater-than and less-than. *)
Definition sample_operators (c : Column) : list Operator :=
  if is_primary_key c then [op_eq; op_in]
  else match mapped_type c with
       | Int64 | Float64 | Timestamp => [op_eq; op_gt; op_lt]
       | Text => [op_eq; op_ne; op_like]
       | _ => [op_eq]
       end.

Definition sample_system_schema (d : Dialect) (schema : string) : bool :=
  String.eqb schema "information_schema" || String.eqb schema "pg_catalog"
  || String.eqb schema "mysql" || String.eqb schema "performance_schema".

(** [orders(id int pk, total numeric, customer_id int fk -> customers.id)] *)
Definition orders_database : Database :=
  {| reachable := true;
     dialect := PostgreSQL;
     catalog :=
       [ {| cat_schema := "public"; cat_table := "orders";
            cat_columns :=
              [ mkCatalogColumn "id" "integer" false true None;
                mkCatalogColumn "total" "numeric" true false None;
                mkCatalogColumn "customer_id" "integer" true false
                  (Some "customers") ];
            cat_constraints := [] |} ] |}.

End Synthesis.

(** ** Dynamic dispatcher *)

Module Dispatcher.
Import TypeMapper Synthesis.

Definition ProjectId : Type := string.

(** Modelled from the spec: one filter parameter of a request, a field
    name with an operator suffix, [?field.operator=value]. *)
Record Filter : Type := mkFilter {
  f_field : string;
  f_operator : string;
  f_value : string
}.

Inductive Direction : Type := asc | desc.

(** Modelled from the spec: the parameters of a request (section 4.3):
    filters combined with AND, a sort by field and direction
    ([?order=field&order_direction=...]), an offset and a limit. *)
Record Params : Type := mkParams {
  filters : list Filter;
  order : option (string * Direction);
  offset : nat;
  limit : option nat
}.

(** Modelled from the spec: the dispatcher's failures of section 4.4. *)
Inductive DispatchError : Type :=
  | NotFoundError (what : string)
  | ValidationError (parameter : string)
  | UpstreamError (code : string).

(** Modelled from the spec: a parameterized query (section 4.4): the
    text refers to the values by position, the values travel apart from
    it. *)
Record Query : Type := mkQuery {
  q_table : string;
  q_operation : Operation;
  q_where : list (string * Operator * nat); (* column, operator, placeholder *)
  q_arguments : list string;
  q_order : option (string * Direction);
  q_offset : nat;
  q_limit : nat
}.

(** Modelled from the spec: the operator suffixes, as the spec's example
    [?customer_name.eq=Bob] and the repository's notes on the generated
    API ([.eq], [.gt], [.in], [.like]) write them. *)
Definition parse_operator (suffix : string) : option Operator :=
  if String.eqb suffix "eq" then Some op_eq
  else if String.eqb suffix "ne" then Some op_ne
  else if String.eqb suffix "gt" then Some op_gt
  else if String.eqb suffix "lt" then Some op_lt
  else if String.eqb suffix "in" then Some op_in
  else if String.eqb suffix "like" then Some op_like
  else None.

(** The name a filter parameter has in the request. *)
Definition parameter_name (f : Filter) : string :=
  (f_field f ++ "." ++ f_operator f)%string.

(** Modelled from the spec: a filter is declared when its field is one
    of the resource's fields and its operator one of that field's
    operators. *)
Definition declared_filter (rd : ResourceDefinition) (f : Filter)
    : option (string * Operator) :=
  fd ← rd_fields rd !! f_field f;
  op ← parse_operator (f_operator f);
  if bool_decide (op ∈ fd_operators fd)
  then Some (fd_column fd, op) else None.

(** Modelled from the spec: the filters are checked in request order;
    the first one that is not declared is the one the error names. *)
Fixpoint validate_filters (rd : ResourceDefinition) (fs : list Filter)
    (placeholder : nat) : DispatchError + list (string * Operator * nat) :=
  match fs with
  | [] => inr []
  | f :: rest =>
      match declared_filter rd f with
      | None => inl (ValidationError (parameter_name f))
      | Some (column, op) =>
          match validate_filters rd rest (S placeholder) with
          | inl e => inl e
          | inr conds => inr ((column, op, placeholder) :: conds)
          end
      end
  end.

(** Modelled from the spec: a sort is "restricted to columns present in
    the snapshot". *)
Definition validate_order (rd : ResourceDefinition)
    (o : option (string * Direction))
    : DispatchError + option (string * Direction) :=
  match o with
  | None => inr None
  | Some (field, dir) =>
      match rd_fields rd !! field with
      | None => inl (ValidationError "order")
      | Some fd => inr (Some (fd_column fd, dir))
      end
  end.

(** Modelled from the spec: the request handling of section 4.4 on one
    complete routing table, whose code is missing: the resource and the
    operation are looked up, then the filter and sort parameters are
    checked against the resource's declared fields and operators, then
    the parameterized query is built. *)
Definition dispatch_on (rt : RoutingTable) (resourceName : string)
    (operation : Operation) (params : Params) : DispatchError + Query :=
  match rt !! resourceName with
  | None => inl (NotFoundError resourceName)
  | Some rd =>
      if bool_decide (operation ∈ rd_operations rd) then
        match validate_filters rd (filters params) 0 with
        | inl e => inl e
        | inr conds =>
            match validate_order rd (order params) with
            | inl e => inl e
            | inr ord =>
                inr {| q_table := rd_table rd;
                       q_operation := operation;
                       q_where := conds;
                       q_arguments := f_value <$> filters params;
                       q_order := ord;
                       q_offset := offset params;
                       q_limit :=
                         Nat.min (default (rd_default_limit rd) (limit params))
                                 (rd_max_limit rd) |}
            end
        end
      else inl (NotFoundError resourceName)
  end.

(** Modelled from the spec: [dispatch(projectId, resourceName, operation,
    params)] of section 4.4, whose code is missing.  A project is
    [Unregistered] (no entry) or [Active] with its current routing
    table. *)
Definition dispatch (active : gmap ProjectId RoutingTable)
    (projectId : ProjectId) (resourceName : string) (operation : Operation)
    (params : Params) : DispatchError + Query :=
  match active !! projectId with
  | None => inl (NotFoundError projectId)
  | Some rt => dispatch_on rt resourceName operation params
  end.

(** A filter or sort parameter the resource does not declare. *)
Definition undeclared_filter (rd : ResourceDefinition) (f : Filter) : Prop :=
  rd_fields rd !! f_field f = None
  \/ parse_operator (f_operator f) = None
  \/ exists fd op,
       rd_fields rd !! f_field f = Some fd
       /\ parse_operator (f_operator f) = Some op
       /\ op ∉ fd_operators fd.

Definition undeclared_order (rd : ResourceDefinition)
    (o : option (string * Direction)) : Prop :=
  exists field dir, o = Some (field, dir) /\ rd_fields rd !! field = None.

(** The parameter named by a [ValidationError] is one the resource does
    not declare. *)
Definition offending (rd : ResourceDefinition) (params : Params)
    (parameter : string) : Prop :=
  (exists f, f ∈ filters params /\ undeclared_filter rd f
             /\ parameter = parameter_name f)
  \/ (undeclared_order rd (order params) /\ parameter = "order").

(** The routing table synthesized for the spec's [orders] example, and
    the request [?customer_name.eq=Bob]. *)
Definition orders_routing_table : RoutingTable :=
  match introspect sample_table sample_structural sample_system_schema
          orders_database with
  | inr snapshot => synthesize sample_operators 1000 snapshot
  | inl _ => ∅
  end.

Definition bob_request : Params :=
  {| filters := [ {| f_field := "customer_name"; f_operator := "eq";
                     f_value := "Bob" |} ];
     order := None; offset := 0; limit := None |}.

End Dispatcher.

(** ** Lifecycle manager *)

Module Lifecycle.

(** Modelled from the spec: the lifecycle states of section 4.5,
    [Requested -> Provisioning -> Running <-> Stopped -> Destroyed], with
    [Failed]; the manager's code is missing. *)
Inductive State : Type :=
  | Requested | Provisioning | Running | Stopped | Failed | Destroyed.

#[global] Instance State_eq_dec : EqDecision State.
Proof. solve_decision. Defined.

(** Modelled from the spec: the commands a caller issues, and what the
    manager observes by itself (readiness probe, health check). *)
Inductive Command : Type :=
  | provision | start | stop | restart | destroy
  | probe_ready | probe_timeout | health_failed.

Inductive LifecycleError : Type :=
  | InvalidStateError (current : State) (command : Command).

(** Modelled from the spec: the transitions of section 4.5, whose code is
    missing.  [provision] enters [Provisioning] from [Requested], and
    again from [Failed] when the caller retries; the readiness probe ends
    it in [Running] or [Failed]; [start], [stop] and [restart] are legal
    from [Running] and [Stopped] only; failing health takes [Running] to
    [Failed]; [destroy] ends in [Destroyed], from which nothing is
    accepted. *)
Definition transition (s : State) (c : Command) : LifecycleError + State :=
  match c, s with
  | provision, (Requested | Failed) => inr Provisioning
  | probe_ready, Provisioning => inr Running
  | probe_timeout, Provisioning => inr Failed
  | start, (Running | Stopped) => inr Running
  | stop, (Running | Stopped) => inr Stopped
  | restart, (Running | Stopped) => inr Running
  | health_failed, Running => inr Failed
  | destroy, (Requested | Provisioning | Running | Stopped | Failed) =>
      inr Destroyed
  | _, _ => inl (InvalidStateError s c)
  end.

(** A refused command leaves the state as it was. *)
Definition apply (s : State) (c : Command) : State :=
  match transition s c with
  | inr s' => s'
  | inl _ => s
  end.

Definition run (s : State) (cs : list Command) : State := fold_left apply cs s.

End Lifecycle.

(** * Properties *)

(** ** The string primitives *)

Lemma append_String (c : ascii) (p post : string) :
  (String c p ++ post)%string = String c (p ++ post)%string.
Proof. reflexivity. Qed.

Lemma prefix_true_iff (p s : string) :
  String.prefix p s = true <-> exists post, s = (p ++ post)%string.
Proof.
  revert s. induction p as [|c p IH]; intros s; simpl.
  - split; [intros _; exists s; reflexivity | intros _; by destruct s].
  - destruct s as [|c' s].
    + split; [done | intros [post Hpost]; discriminate].
    + simpl. destruct (ascii_dec c c') as [->|Hne].
      * rewrite IH. split; intros [post Hpost]; exists post;
          rewrite append_String in *; congruence.
      * split; [done|].
        intros [post Hpost]; rewrite append_String in Hpost; congruence.
Qed.

Lemma includes_unfold (s sub : string) :
  Js.includes s sub
  = String.prefix sub s
    || match s with
       | EmptyString => false
       | String _ rest => Js.includes rest sub
       end.
Proof. by destruct s. Qed.

(** [includes] decides the occurrence of a substring. *)
Lemma includes_occurs_in (s sub : string) :
  Js.includes s sub = true <-> Js.occurs_in sub s.
Proof.
  unfold Js.occurs_in. split.
  - induction s as [|c s IH];
      rewrite includes_unfold, orb_true_iff, prefix_true_iff.
    + intros [[post ->]|?]; [by exists "", post | done].
    + intros [[post ->]|Hin]; [by exists "", post |].
      destruct (IH Hin) as (pre & post & ->). by exists (String c pre), post.
  - intros (pre & post & ->). induction pre as [|c pre IH].
    + rewrite includes_unfold, orb_true_iff, prefix_true_iff.
      left. by exists post.
    + change (String c pre ++ sub ++ post)%string
        with (String c (pre ++ sub ++ post)%string).
      rewrite includes_unfold, IH. apply orb_true_r.
Qed.

#[global] Instance occurs_in_dec (sub s : string) :
  Decision (Js.occurs_in sub s).
Proof.
  refine (cast_if (decide (Js.includes s sub = true)));
    by rewrite <- includes_occurs_in.
Defined.

Lemma truthy_false (q : string) : Js.truthy q = false <-> q = "".
Proof. unfold Js.truthy. rewrite negb_false_iff. apply String.eqb_eq. Qed.

(** ** [Array.prototype.filter] *)


Lemma List_filter_twice {A : Type} (f g : A -> bool) (l : list A) :
  List.filter g (List.filter f l) = List.filter (fun x => f x && g x) l.
Proof.
  induction l as [|x l IH]; [done|].
  simpl. destruct (f x); simpl; [destruct (g x)|]; by rewrite IH.
Qed.

Lemma List_filter_all {A : Type} (l : list A) :
  List.filter (fun _ => true) l = l.
Proof. induction l as [|x l IH]; [done|]. simpl. by rewrite IH. Qed.


(** ** The new-project wizard *)

(** C9: selecting a database type resets the connection form's port to
    that type's default.  [getDefaultPort] is ['5432'] for ['postgresql']
    and ['3306'] for ['mysql']; [handleDatabaseTypeChange], from any state
    of the wizard (so whatever port was typed before), leaves the port at
    that default and the selected type in the project data, and changes
    neither the host, database, user name and password nor any other
    cell of the component's state; so after any sequence of inputs that
    ends with a selection the port is the selected type's default. *)
Theorem database_type_change_resets_port :
  NewProjectPage.getDefaultPort postgresql = "5432"
  /\ NewProjectPage.getDefaultPort mysql = "3306"
  /\ (forall (type : DatabaseType) (s : NewProjectPage.State),
       let s' :=
         NewProjectPage.exec (NewProjectPage.handleDatabaseTypeChange type) s in
       NewProjectPage.port (NewProjectPage.connectionData s')
       = NewProjectPage.getDefaultPort type
       /\ NewProjectPage.host (NewProjectPage.connectionData s')
          = NewProjectPage.host (NewProjectPage.connectionData s)
       /\ NewProjectPage.database (NewProjectPage.connectionData s')
          = NewProjectPage.database (NewProjectPage.connectionData s)
       /\ NewProjectPage.username (NewProjectPage.connectionData s')
          = NewProjectPage.username (NewProjectPage.connectionData s)
       /\ NewProjectPage.password (NewProjectPage.connectionData s')
          = NewProjectPage.password (NewProjectPage.connectionData s)
       /\ NewProjectPage.database_type (NewProjectPage.projectData s') = type
       /\ NewProjectPage.name (NewProjectPage.projectData s')
          = NewProjectPage.name (NewProjectPage.projectData s)
       /\ NewProjectPage.description (NewProjectPage.projectData s')
          = NewProjectPage.description (NewProjectPage.projectData s)
       /\ NewProjectPage.step s' = NewProjectPage.step s
       /\ NewProjectPage.isLoading s' = NewProjectPage.isLoading s
       /\ NewProjectPage.connectionStatus s'
          = NewProjectPage.connectionStatus s
       /\ NewProjectPage.error s' = NewProjectPage.error s)
  /\ (forall (evs : list NewProjectPage.Event) (type : DatabaseType),
        NewProjectPage.port
          (NewProjectPage.connectionData
             (NewProjectPage.run
                (evs ++ [NewProjectPage.SelectedDatabaseType type])))
        = NewProjectPage.getDefaultPort type).
Proof.
  split; [reflexivity|]. split; [reflexivity|]. split.
  - intros type s. cbv zeta. repeat split.
  - intros evs type. unfold NewProjectPage.run.
    rewrite fold_left_app. reflexivity.
Qed.

(** A port typed by hand is overwritten by the next selection. *)
Example typed_port_is_overwritten :
  NewProjectPage.port
    (NewProjectPage.connectionData
       (NewProjectPage.run
          [ NewProjectPage.Typed NewProjectPage.field_host "db.internal";
            NewProjectPage.Typed NewProjectPage.field_port "6543";
            NewProjectPage.SelectedDatabaseType mysql ]))
  = "3306".
Proof. reflexivity. Qed.

(** ** The projects listing *)

#[global] Instance StatusFilter_eq_dec : EqDecision ProjectsPage.StatusFilter.
Proof. solve_decision. Defined.

#[global] Instance shown_dec (toLowerCase : string -> string) (q : string)
    (f : ProjectsPage.StatusFilter) (p : ProjectsPage.Project) :
  Decision (ProjectsPage.shown toLowerCase q f p).
Proof. unfold ProjectsPage.shown, ProjectsPage.contains_ci. apply _. Defined.

Section ProjectsPageFacts.
Import ProjectsPage.
Variable toLowerCase : string -> string.
Hypothesis toLowerCase_empty : toLowerCase "" = "".

Lemma filterEffect_passes (ps : list Project) (q : string) (f : StatusFilter) :
  filterEffect toLowerCase ps q f = List.filter (passes toLowerCase q f) ps.
Proof.
  unfold filterEffect, passes.
  destruct (Js.truthy q);
    destruct (Js.strict_eq (StatusFilter_literal f) "all"); simpl.
  - rewrite <- (List_filter_all (List.filter _ ps)), List_filter_twice.
    done.
  - by rewrite List_filter_twice.
  - by rewrite List_filter_all.
  - done.
Qed.

Lemma literal_all (f : StatusFilter) :
  Js.strict_eq (StatusFilter_literal f) "all" = true <-> f = filter_all.
Proof. by destruct f. Qed.

Lemma literal_inj (f g : StatusFilter) :
  Js.strict_eq (StatusFilter_literal f) (StatusFilter_literal g) = true ->
  f = g.
Proof. by destruct f, g. Qed.

Lemma passes_shown (q : string) (f : StatusFilter) (p : Project) :
  passes toLowerCase q f p = true <-> shown toLowerCase q f p.
Proof.
  unfold passes, shown, contains_ci.
  rewrite andb_true_iff, !orb_true_iff, negb_true_iff, truthy_false,
    literal_all, !includes_occurs_in.
  unfold Js.strict_eq. rewrite String.eqb_eq.
  split.
  - intros [[[->|?]|?] Hst]; (split; [|destruct Hst; [done | by intros _]]).
    + left. rewrite toLowerCase_empty. by exists "", (toLowerCase (name p)).
    + by left.
    + by right.
  - intros [Hq Hst]. split.
    + destruct Hq; [left; by right | by right].
    + destruct (decide (f = filter_all)); [by left | right; auto].
Qed.


(** The displayed list is the effect's result for the projects, the
    query and the status filter the state holds. *)
Definition settled (s : State) : Prop :=
  filteredProjects s
  = filterEffect toLowerCase (projects s) (searchQuery s) (statusFilter s).



(** What the page holds between events: nothing loaded and nothing
    typed while loading, the mock projects afterwards. *)
Definition loaded_or_loading (s : State) : Prop :=
  if isLoading s
  then projects s = [] /\ searchQuery s = "" /\ statusFilter s = filter_all
  else projects s = mockProjects.

Lemma handle_settled (s : State) (ev : Event) :
  settled s -> depsChanged ev s (handle ev s) = false ->
  settled (handle ev s).
Proof.
  unfold settled. intros Hs Hdeps.
  destruct ev as [|value|value]; [done|..]; simpl in *;
    apply orb_false_iff in Hdeps as [Hq Hf];
    apply negb_false_iff in Hq, Hf.
  - apply String.eqb_eq in Hq. by rewrite <- Hq.
  - apply literal_inj in Hf. by rewrite <- Hf.
Qed.


Lemma update_settled (s : State) (ev : Event) :
  settled s -> settled (update toLowerCase s ev).
Proof.
  intros Hs. unfold update. destruct (offered ev s); [|done].
  unfold renders.
  destruct (depsChanged ev s (handle ev s)) eqn:Hdeps; simpl; [done|].
  by apply handle_settled.
Qed.

Lemma fold_update_settled (evs : list Event) (s : State) :
  settled s -> settled (fold_left (update toLowerCase) evs s).
Proof.
  revert s. induction evs as [|ev evs IH]; intros s Hs; [done|].
  simpl. by apply IH, update_settled.
Qed.

Lemma run_settled (evs : list Event) : settled (run toLowerCase evs).
Proof. by apply fold_update_settled. Qed.





(** *** Loading *)

Lemma handle_loaded_or_loading (s : State) (ev : Event) :
  offered ev s = true -> loaded_or_loading s ->
  loaded_or_loading (handle ev s)
  /\ loaded_or_loading (runFilterEffect toLowerCase (handle ev s)).
Proof.
  unfold loaded_or_loading.
  destruct s as [ps fps q f l], ev as [|value|value]; simpl;
    intros Ho; destruct l; simpl in *; try done.
Qed.

Lemma renders_loaded_or_loading (s : State) (ev : Event) :
  offered ev s = true -> loaded_or_loading s ->
  Forall loaded_or_loading (renders toLowerCase s ev).
Proof.
  intros Ho Hs. destruct (handle_loaded_or_loading s ev Ho Hs) as [H1 H2].
  unfold renders. destruct (depsChanged ev s (handle ev s));
    repeat constructor; done.
Qed.

Lemma update_loaded_or_loading (s : State) (ev : Event) :
  loaded_or_loading s -> loaded_or_loading (update toLowerCase s ev).
Proof.
  intros Hs. unfold update. destruct (offered ev s) eqn:Ho; [|done].
  destruct (handle_loaded_or_loading s ev Ho Hs) as [H1 H2].
  unfold renders. by destruct (depsChanged ev s (handle ev s)).
Qed.

Lemma frames_from_loaded_or_loading (evs : list Event) (s : State) :
  loaded_or_loading s ->
  Forall loaded_or_loading (frames_from toLowerCase s evs)
  /\ loaded_or_loading (fold_left (update toLowerCase) evs s).
Proof.
  revert s. induction evs as [|ev evs IH]; intros s Hs; simpl; [done|].
  destruct (IH _ (update_loaded_or_loading s ev Hs)) as [Hall Hlast].
  split; [|done]. apply Forall_app. split; [|done].
  destruct (offered ev s) eqn:Ho; [|constructor].
  by apply renders_loaded_or_loading.
Qed.

Lemma frames_loaded_or_loading (evs : list Event) :
  Forall loaded_or_loading (frames toLowerCase evs).
Proof.
  unfold frames. repeat constructor.
  by apply frames_from_loaded_or_loading.
Qed.

Lemma mounted_loading :
  loaded_or_loading (mounted toLowerCase).
Proof. done. Qed.

(** The spinner is there until the timer fires. *)
Lemma fold_update_isLoading (evs : list Event) (s : State) :
  isLoading (fold_left (update toLowerCase) evs s) = true
  <-> isLoading s = true /\ TimeoutFired ∉ evs.
Proof.
  revert s. induction evs as [|ev evs IH]; intros s; simpl.
  - split; [intros H; split; [done|apply not_elem_of_nil] | by intros [H _]].
  - rewrite IH, not_elem_of_cons. unfold update, offered, renders.
    destruct ev as [|value|value], (isLoading s) eqn:El; simpl;
      repeat match goal with
             | |- context [if ?b then _ else _] => destruct b
             end; simpl; rewrite ?El; split; intros H; try tauto;
      try (by destruct H as (? & ? & ?)); by destruct H as [? ?].
Qed.
End ProjectsPageFacts.




(** ** The registry tables *)

Section InitSqlFacts.
Import InitSql.

Lemma bind_inr {A B : Type} (m : result A) (k : A -> result B) (b : B) :
  m ≫= k = inr b -> exists a, m = inr a /\ k a = inr b.
Proof. destruct m as [e|a]; [done|]. intros H. by exists a. Qed.

(** Uniqueness per owner is the absence of duplicates among the
    indexed pairs. *)
Lemma name_unique_per_owner_NoDup (t : list projects.row) :
  name_unique_per_owner t <-> NoDup (owner_id_name <$> t).
Proof.
  rewrite NoDup_alt. unfold name_unique_per_owner. split.
  - intros Hu i j k Hi Hj.
    rewrite list_lookup_fmap in Hi, Hj.
    destruct (t !! i) as [r1|] eqn:E1; [|done].
    destruct (t !! j) as [r2|] eqn:E2; [|done].
    simpl in Hi, Hj. destruct (decide (i = j)) as [|Hne]; [done|].
    exfalso.
    assert (owner_id_name r1 = owner_id_name r2) as Hk by congruence.
    unfold owner_id_name in Hk.
    apply (Hu i j r1 r2 E1 E2 Hne); congruence.
  - intros Hn i j r1 r2 E1 E2 Hne Ho Hname. apply Hne.
    apply (Hn i j (owner_id_name r1)); rewrite list_lookup_fmap.
    + by rewrite E1.
    + rewrite E2. unfold owner_id_name. simpl. congruence.
Qed.

Lemma owner_id_name_free (new : projects.row) (others : list projects.row) :
  projects.owner_id_name_taken new others = false ->
  owner_id_name new ∉ owner_id_name <$> others.
Proof.
  unfold projects.owner_id_name_taken. intros Hf Hin.
  apply list_elem_of_fmap in Hin as (r & Hk & Hr).
  apply not_true_iff_false in Hf. apply Hf.
  apply existsb_exists. exists r. split; [by apply list_elem_of_In|].
  unfold owner_id_name in Hk. injection Hk as Ho Hn.
  rewrite Ho, Hn, N.eqb_refl, String.eqb_refl. done.
Qed.

Lemma check_inr (us : list users.row) (others : list projects.row)
    (new r : projects.row) :
  projects.check us others new = inr r ->
  r = new /\ projects.owner_id_name_taken new others = false.
Proof.
  unfold projects.check.
  destruct (projects.pkey_taken new others); [done|].
  destruct (projects.owner_id_name_taken new others); [done|].
  destruct (negb (projects.owner_exists new us)); [done|].
  intros [= <-]. done.
Qed.

Lemma insert_NoDup (e : env) (us : list users.row) (v : projects.values)
    (t t' : list projects.row) :
  projects.insert e us v t = inr t' ->
  NoDup (owner_id_name <$> t) -> NoDup (owner_id_name <$> t').
Proof.
  unfold projects.insert. intros H Hn.
  apply bind_inr in H as (new & H & [= <-]).
  apply bind_inr in H as (built & _ & H).
  apply check_inr in H as [-> Hfree%owner_id_name_free].
  rewrite fmap_app. apply NoDup_app. split_and!; [done| |apply NoDup_singleton].
  intros k Hk [->|[]%elem_of_nil]%elem_of_cons. done.
Qed.

Lemma update_rows_NoDup (e : env) (us : list users.row)
    (a : projects.assignments) (where_ : projects.row -> bool)
    (after before t' : list projects.row) :
  projects.update_rows e us a where_ before after = inr t' ->
  NoDup (owner_id_name <$> (before ++ after)) ->
  NoDup (owner_id_name <$> t').
Proof.
  revert before. induction after as [|old rest IH]; intros before H Hn.
  - injection H as <-. by rewrite app_nil_r in Hn.
  - simpl in H. destruct (where_ old).
    + apply bind_inr in H as (assigned & _ & H).
      apply bind_inr in H as (new & Hc & H).
      apply check_inr in Hc as [-> Hfree%owner_id_name_free].
      apply IH in H; [done|].
      rewrite <- app_assoc. simpl.
      rewrite fmap_app, fmap_cons, <- Permutation_middle, <- fmap_app.
      apply NoDup_cons. split; [done|].
      rewrite fmap_app, fmap_cons, <- Permutation_middle in Hn.
      apply NoDup_cons in Hn as [_ Hn]. by rewrite fmap_app.
    + apply IH in H; [done|]. by rewrite <- app_assoc.
Qed.

Lemma delete_NoDup (where_ : projects.row -> bool) (t : list projects.row) :
  NoDup (owner_id_name <$> t) ->
  NoDup (owner_id_name <$> projects.delete where_ t).
Proof.
  unfold projects.delete. induction t as [|r t IH]; [done|].
  rewrite fmap_cons, NoDup_cons. intros [Hr Hn]. simpl.
  destruct (negb (where_ r)); [|by apply IH].
  rewrite fmap_cons, NoDup_cons. split; [|by apply IH].
  intros Hin. apply Hr.
  apply list_elem_of_fmap in Hin as (r' & -> & Hr').
  apply list_elem_of_fmap. exists r'. split; [done|].
  apply list_elem_of_In, filter_In in Hr' as [Hr' _]. by apply list_elem_of_In.
Qed.

Lemma execute_NoDup (e : env) (st : statement) (d d' : db) :
  execute e st d = inr d' ->
  NoDup (owner_id_name <$> projects_table d) ->
  NoDup (owner_id_name <$> projects_table d').
Proof.
  destruct st; simpl; intros H Hn.
  - apply bind_inr in H as (us & _ & [= <-]). done.
  - injection H as <-. by apply delete_NoDup.
  - apply bind_inr in H as (ps & H & [= <-]). by eapply insert_NoDup.
  - apply bind_inr in H as (ps & H & [= <-]). by eapply update_rows_NoDup.
  - injection H as <-. by apply delete_NoDup.
Qed.

Lemma run_statement_unique (d : db) (c : env * statement) :
  name_unique_per_owner (projects_table d) ->
  name_unique_per_owner (projects_table (run_statement d c)).
Proof.
  rewrite !name_unique_per_owner_NoDup. unfold run_statement.
  destruct (execute c.1 c.2 d) as [err|d'] eqn:E; [done|].
  by apply execute_NoDup with (e := c.1) (st := c.2) (d := d).
Qed.

(** An invariant of single statements holds along a whole session. *)
Lemma session_invariant (I : db -> Prop) (session : list (env * statement)) :
  I empty_db ->
  (forall d c, I d -> I (run_statement d c)) ->
  I (run session).
Proof.
  intros H0 Hstep. unfold run.
  assert (forall d, I d -> I (fold_left run_statement session d)) as Hfold.
  { induction session as [|c session IH]; intros d Hd; [done|].
    simpl. by apply IH, Hstep. }
  by apply Hfold.
Qed.

(** *** The width of a [VARCHAR] column *)


Lemma clip_append (n : nat) (s : string) :
  s = ((clip n s).1 ++ (clip n s).2)%string.
Proof.
  revert n. induction s as [|a s IH]; intros n; [done|]. simpl.
  destruct (continuation a).
  - specialize (IH n). destruct (clip n s) as [kept excess]. simpl in *.
    rewrite append_String. by rewrite <- IH.
  - destruct n as [|n]; [done|].
    specialize (IH n). destruct (clip n s) as [kept excess]. simpl in *.
    rewrite append_String. by rewrite <- IH.
Qed.




End InitSqlFacts.

(** C1: for every owner, no two rows of [projects] that belong to that
    owner have the same name, and every statement that creates or changes
    a project keeps it so.  The property holds of the table after any
    session that starts from the empty database, and any statement the
    database accepts ([INSERT], [UPDATE] and [DELETE] on [projects], and
    on [users] with the cascade) takes a table that has the property to
    one that has it. *)
Theorem projects_name_unique_per_owner :
  (forall session : list (InitSql.env * InitSql.statement),
     InitSql.name_unique_per_owner
       (InitSql.projects_table (InitSql.run session)))
  /\ (forall (e : InitSql.env) (st : InitSql.statement) (d d' : InitSql.db),
        InitSql.name_unique_per_owner (InitSql.projects_table d) ->
        InitSql.execute e st d = inr d' ->
        InitSql.name_unique_per_owner (InitSql.projects_table d')).
Proof.
  split.
  - intros session.
    apply (session_invariant
             (fun d =>
                InitSql.name_unique_per_owner (InitSql.projects_table d))).
    + intros i j r1 r2 Hi. done.
    + intros d c. apply run_statement_unique.
  - intros e st d d' Hd He. rewrite name_unique_per_owner_NoDup in *.
    by eapply execute_NoDup.
Qed.

(** A second project of the same owner is added next to "shop", and the
    two names differ. *)
Lemma projects_name_unique_per_owner_witness :
  exists d' : InitSql.db,
    InitSql.execute (InitSql.session_env 12)
      (InitSql.INSERT_INTO_projects (InitSql.project_of_alice "blog" "mysql"))
      InitSql.alice_with_shop = inr d'
    /\ length (InitSql.projects_table d') = 2
    /\ InitSql.name_unique_per_owner (InitSql.projects_table d').
Proof.
  eexists. split; [vm_compute; reflexivity|]. split; [reflexivity|].
  apply (proj2 projects_name_unique_per_owner (InitSql.session_env 12)
           (InitSql.INSERT_INTO_projects
              (InitSql.project_of_alice "blog" "mysql"))
           InitSql.alice_with_shop).
  - intros i j r1 r2 Hi%lookup_lt_Some Hj%lookup_lt_Some Hne.
    vm_compute in Hi, Hj. lia.
  - vm_compute. reflexivity.
Defined.

(** The table refuses a second "shop" of the same owner, on insertion
    and on renaming. *)
Example second_shop_refused :
  InitSql.execute (InitSql.session_env 12)
    (InitSql.INSERT_INTO_projects (InitSql.project_of_alice "shop" "mysql"))
    InitSql.alice_with_shop
  = inl (InitSql.unique_violation "projects_owner_id_name_key").
Proof. vm_compute. reflexivity. Qed.

Example rename_to_shop_refused :
  InitSql.execute (InitSql.session_env 13)
    (InitSql.UPDATE_projects (InitSql.rename_to "shop")
       (fun r => String.eqb (InitSql.projects.name r) "blog"))
    (InitSql.run_statement InitSql.alice_with_shop
       (InitSql.session_env 12,
        InitSql.INSERT_INTO_projects (InitSql.project_of_alice "blog" "mysql")))
  = inl (InitSql.unique_violation "projects_owner_id_name_key").
Proof. vm_compute. reflexivity. Qed.

(** C8: the [projects] table does not keep the database kind to the
    two values that the comment on its column names: on a table whose
    kinds are all ['postgresql'] or ['mysql'], an [INSERT] of a project
    whose [database_type] is ['sqlite'] is accepted, and the kind is
    stored as given. *)
Lemma projects_table_accepts_other_kind :
  InitSql.database_kind_enum (InitSql.projects_table InitSql.alice_with_shop)
  /\ exists d' : InitSql.db,
       InitSql.execute (InitSql.session_env 12)
         (InitSql.INSERT_INTO_projects
            (InitSql.project_of_alice "blog" "sqlite"))
         InitSql.alice_with_shop = inr d'
       /\ ~ InitSql.database_kind_enum (InitSql.projects_table d').
Proof.
  split.
  - intros r Hr. vm_compute in Hr.
    apply list_elem_of_singleton in Hr as ->. by left.
  - eexists. split; [vm_compute; reflexivity|].
    intros H. edestruct H as [Hk|Hk].
    + apply list_elem_of_In. right. left. reflexivity.
    + discriminate Hk.
    + discriminate Hk.
Qed.

(** ** Dispatcher *)

Section DispatcherFacts.
Import Synthesis Dispatcher.

Lemma declared_filter_None (rd : ResourceDefinition) (f : Filter) :
  declared_filter rd f = None <-> undeclared_filter rd f.
Proof.
  unfold declared_filter, undeclared_filter.
  destruct (rd_fields rd !! f_field f) as [fd|]; simpl;
    [|split; [by left | done]].
  destruct (parse_operator (f_operator f)) as [op|]; simpl;
    [|split; [right; by left | done]].
  case_bool_decide as Hin.
  - split; [done|].
    intros [?|[?|(fd' & op' & [= <-] & [= <-] & Hnot)]]; done.
  - split; [|done]. intros _. right. right. by exists fd, op.
Qed.

Lemma validate_filters_inr (rd : ResourceDefinition) (fs : list Filter)
    (n : nat) (conds : list (string * Operator * nat)) :
  validate_filters rd fs n = inr conds ->
  Forall (fun f => ~ undeclared_filter rd f) fs.
Proof.
  revert n conds. induction fs as [|f fs IH]; intros n conds; [constructor|].
  simpl. destruct (declared_filter rd f) as [[column op]|] eqn:E; [|done].
  destruct (validate_filters rd fs (S n)) as [e|conds'] eqn:E'; [done|].
  intros _. constructor; [|by eapply IH].
  rewrite <- declared_filter_None. congruence.
Qed.

(** A refusal of the filters names one of them, and that one is not
    declared. *)
Lemma validate_filters_inl (rd : ResourceDefinition) (fs : list Filter)
    (n : nat) (e : DispatchError) :
  validate_filters rd fs n = inl e ->
  exists f, f ∈ fs /\ undeclared_filter rd f
            /\ e = ValidationError (parameter_name f).
Proof.
  revert n. induction fs as [|f fs IH]; intros n; [done|].
  simpl. destruct (declared_filter rd f) as [[column op]|] eqn:E.
  - destruct (validate_filters rd fs (S n)) as [e'|conds'] eqn:E'; [|done].
    intros [= <-]. destruct (IH _ E') as (f' & Hin & Hun & ->).
    exists f'. split_and!; [by right|done..].
  - intros [= <-]. exists f. split_and!; [by left| |done].
    by apply declared_filter_None.
Qed.

Lemma validate_filters_undeclared (rd : ResourceDefinition)
    (fs : list Filter) (n : nat) (f : Filter) :
  f ∈ fs -> undeclared_filter rd f ->
  exists e, validate_filters rd fs n = inl e.
Proof.
  intros Hin Hun.
  destruct (validate_filters rd fs n) as [e|conds] eqn:E; [by exists e|].
  apply validate_filters_inr in E. rewrite Forall_forall in E.
  by destruct (E f Hin).
Qed.

Lemma validate_order_undeclared (rd : ResourceDefinition)
    (o : option (string * Direction)) :
  undeclared_order rd o -> validate_order rd o = inl (ValidationError "order").
Proof.
  intros (field & dir & -> & Hf). unfold validate_order. by rewrite Hf.
Qed.
End DispatcherFacts.

(** C4: a [dispatch] call for a project that is not registered, or for a
    resource that is not in the project's current routing table, fails
    with [NotFoundError]; a call whose filter or sort parameters name a
    field or an operator that the resource definition does not declare
    fails with [ValidationError], and the parameter it names is one of
    the undeclared ones.  On the [orders] table of the spec's example,
    [?customer_name.eq=Bob] is refused with [ValidationError] naming
    [customer_name.eq]. *)
Theorem dispatch_unknown_resource_or_parameter
    (active : gmap Dispatcher.ProjectId Synthesis.RoutingTable)
    (projectId : Dispatcher.ProjectId) (resourceName : string)
    (operation : Synthesis.Operation) (params : Dispatcher.Params) :
  (active !! projectId = None ->
   Dispatcher.dispatch active projectId resourceName operation params
   = inl (Dispatcher.NotFoundError projectId))
  /\ (forall rt : Synthesis.RoutingTable,
        active !! projectId = Some rt -> rt !! resourceName = None ->
        Dispatcher.dispatch active projectId resourceName operation params
        = inl (Dispatcher.NotFoundError resourceName))
  /\ (forall (rt : Synthesis.RoutingTable) (rd : Synthesis.ResourceDefinition),
        active !! projectId = Some rt -> rt !! resourceName = Some rd ->
        operation ∈ Synthesis.rd_operations rd ->
        (exists f : Dispatcher.Filter,
           f ∈ Dispatcher.filters params /\ Dispatcher.undeclared_filter rd f)
        \/ Dispatcher.undeclared_order rd (Dispatcher.order params) ->
        exists parameter : string,
          Dispatcher.dispatch active projectId resourceName operation params
          = inl (Dispatcher.ValidationError parameter)
          /\ Dispatcher.offending rd params parameter)
  /\ Dispatcher.dispatch {[ "shop" := Dispatcher.orders_routing_table ]}
       "shop" "orders" Synthesis.op_list Dispatcher.bob_request
     = inl (Dispatcher.ValidationError "customer_name.eq").
Proof.
  split_and!.
  - intros Hrt. unfold Dispatcher.dispatch. by rewrite Hrt.
  - intros rt Hrt Hres. unfold Dispatcher.dispatch, Dispatcher.dispatch_on.
    by rewrite Hrt, Hres.
  - intros rt rd Hrt Hres Hop Hbad.
    unfold Dispatcher.dispatch, Dispatcher.dispatch_on.
    rewrite Hrt, Hres, (bool_decide_eq_true_2 _ Hop).
    destruct (Dispatcher.validate_filters rd (Dispatcher.filters params) 0)
      as [e|conds] eqn:Ef.
    + apply validate_filters_inl in Ef as (f & Hin & Hun & ->).
      eexists. split; [done|]. left. by exists f.
    + destruct Hbad as [(f & Hin & Hun)|Hord].
      * destruct (validate_filters_undeclared rd _ 0 f Hin Hun) as [e He].
        congruence.
      * rewrite (validate_order_undeclared _ _ Hord).
        eexists. split; [done|]. by right.
  - vm_compute. reflexivity.
Qed.

Lemma dispatch_unknown_resource_or_parameter_witness :
  exists rd : Synthesis.ResourceDefinition,
    Dispatcher.orders_routing_table !! "orders" = Some rd
    /\ exists parameter : string,
         Dispatcher.dispatch {[ "shop" := Dispatcher.orders_routing_table ]}
           "shop" "orders" Synthesis.op_list Dispatcher.bob_request
         = inl (Dispatcher.ValidationError parameter)
         /\ Dispatcher.offending rd Dispatcher.bob_request parameter.
Proof.
  eexists. split; [vm_compute; reflexivity|].
  apply (proj1 (proj2 (proj2 (dispatch_unknown_resource_or_parameter
           {[ "shop" := Dispatcher.orders_routing_table ]}
           "shop" "orders" Synthesis.op_list Dispatcher.bob_request)))
           Dispatcher.orders_routing_table).
  - vm_compute. reflexivity.
  - vm_compute. reflexivity.
  - apply (bool_decide_unpack _). vm_compute. exact I.
  - left. exists (Dispatcher.mkFilter "customer_name" "eq" "Bob"). split.
    + apply list_elem_of_In. left. reflexivity.
    + left. vm_compute. reflexivity.
Defined.

(** ** Lifecycle manager *)

(** C6: [start], [stop] and [restart] are legal from [Running] and
    [Stopped] only: from any other state each fails with
    [InvalidStateError] and the state stays as it was, and where one is
    accepted the state was, and is again, [Running] or [Stopped].
    [Destroyed] is terminal: once [destroy] has been accepted the state
    is [Destroyed], it stays so whatever commands follow, and each of
    them fails with [InvalidStateError]. *)
Theorem lifecycle_commands_guarded :
  (forall (s : Lifecycle.State) (c : Lifecycle.Command),
     c = Lifecycle.start \/ c = Lifecycle.stop \/ c = Lifecycle.restart ->
     s <> Lifecycle.Running -> s <> Lifecycle.Stopped ->
     Lifecycle.transition s c = inl (Lifecycle.InvalidStateError s c)
     /\ Lifecycle.apply s c = s)
  /\ (forall (s s' : Lifecycle.State) (c : Lifecycle.Command),
        c = Lifecycle.start \/ c = Lifecycle.stop \/ c = Lifecycle.restart ->
        Lifecycle.transition s c = inr s' ->
        (s = Lifecycle.Running \/ s = Lifecycle.Stopped)
        /\ (s' = Lifecycle.Running \/ s' = Lifecycle.Stopped))
  /\ (forall s s' : Lifecycle.State,
        Lifecycle.transition s Lifecycle.destroy = inr s' ->
        s' = Lifecycle.Destroyed
        /\ forall (cs : list Lifecycle.Command) (c : Lifecycle.Command),
             Lifecycle.run s' cs = Lifecycle.Destroyed
             /\ Lifecycle.transition (Lifecycle.run s' cs) c
                = inl (Lifecycle.InvalidStateError Lifecycle.Destroyed c)).
Proof.
  split_and!.
  - intros s c [->|[->| ->]] Hr Hs; by destruct s.
  - intros s s' c [->|[->| ->]]; destruct s; simpl; intros [= <-]; auto.
  - intros s s' Hd.
    assert (s' = Lifecycle.Destroyed) as ->
      by (destruct s; simpl in Hd; congruence).
    split; [done|].
    assert (forall cs,
              Lifecycle.run Lifecycle.Destroyed cs = Lifecycle.Destroyed)
      as Hrun.
    { induction cs as [|c cs IH]; [done|]. simpl. by destruct c. }
    intros cs c. rewrite Hrun. split; [done|]. by destruct c.
Qed.

Lemma lifecycle_commands_guarded_witness :
  (Lifecycle.transition Lifecycle.Provisioning Lifecycle.stop
   = inl (Lifecycle.InvalidStateError Lifecycle.Provisioning Lifecycle.stop)
   /\ Lifecycle.apply Lifecycle.Provisioning Lifecycle.stop
      = Lifecycle.Provisioning)
  /\ Lifecycle.transition
       (Lifecycle.run Lifecycle.Destroyed
          [Lifecycle.start; Lifecycle.provision])
       Lifecycle.restart
     = inl (Lifecycle.InvalidStateError Lifecycle.Destroyed Lifecycle.restart).
Proof.
  split.
  - apply (proj1 lifecycle_commands_guarded
             Lifecycle.Provisioning Lifecycle.stop).
    + right. left. reflexivity.
    + discriminate.
    + discriminate.
  - apply (proj2 (proj2 (proj2 lifecycle_commands_guarded)
                    Lifecycle.Running Lifecycle.Destroyed eq_refl)).
Defined.

(** The path of the spec's state machine, and a refused command on it. *)
Example lifecycle_path :
  Lifecycle.run Lifecycle.Requested
    [ Lifecycle.provision; Lifecycle.start; Lifecycle.probe_ready;
      Lifecycle.stop; Lifecycle.restart; Lifecycle.destroy;
      Lifecycle.start ]
  = Lifecycle.Destroyed.
Proof. reflexivity. Qed.

(** * Further properties of the registry tables *)

Section RegistryFacts.
Import InitSql.

(** Everything [check] looks at. *)
Lemma check_passed (us : list users.row) (others : list projects.row)
    (new r : projects.row) :
  projects.check us others new = inr r ->
  r = new /\ projects.pkey_taken new others = false
  /\ projects.owner_id_name_taken new others = false
  /\ projects.owner_exists new us = true.
Proof.
  unfold projects.check.
  destruct (projects.pkey_taken new others); [done|].
  destruct (projects.owner_id_name_taken new others); [done|].
  destruct (projects.owner_exists new us); [|done].
  intros [= <-]. done.
Qed.

Lemma existsb_false_not_in {A K : Type} (key : A -> K) (eqb : K -> K -> bool)
    (k : K) (l : list A) :
  (forall x, eqb x x = true) ->
  existsb (fun r => eqb (key r) k) l = false -> k ∉ key <$> l.
Proof.
  intros Hrefl Hf Hin. apply list_elem_of_fmap in Hin as (r & -> & Hr).
  apply not_true_iff_false in Hf. apply Hf.
  apply existsb_exists. exists r. split; [by apply list_elem_of_In|done].
Qed.

Lemma pkey_free (new : projects.row) (others : list projects.row) :
  projects.pkey_taken new others = false ->
  projects.id new ∉ projects.id <$> others.
Proof. apply (existsb_false_not_in projects.id N.eqb), N.eqb_refl. Qed.

Lemma projects_insert_pkey (e : env) (us : list users.row)
    (v : projects.values) (t t' : list projects.row) :
  projects.insert e us v t = inr t' ->
  projects_pkey_unique t -> projects_pkey_unique t'.
Proof.
  unfold projects.insert, projects_pkey_unique. intros H Hn.
  apply bind_inr in H as (new & H & [= <-]).
  apply bind_inr in H as (built & _ & H).
  apply check_passed in H as (-> & Hfree%pkey_free & _).
  rewrite fmap_app. apply NoDup_app. split_and!; [done| |apply NoDup_singleton].
  intros k Hk [->|[]%elem_of_nil]%elem_of_cons. done.
Qed.

Lemma projects_update_rows_pkey (e : env) (us : list users.row)
    (a : projects.assignments) (where_ : projects.row -> bool)
    (after before t' : list projects.row) :
  projects.update_rows e us a where_ before after = inr t' ->
  projects_pkey_unique (before ++ after) -> projects_pkey_unique t'.
Proof.
  unfold projects_pkey_unique.
  revert before. induction after as [|old rest IH]; intros before H Hn.
  - injection H as <-. by rewrite app_nil_r in Hn.
  - simpl in H. destruct (where_ old).
    + apply bind_inr in H as (assigned & _ & H).
      apply bind_inr in H as (new & Hc & H).
      apply check_passed in Hc as (-> & Hfree%pkey_free & _).
      apply IH in H; [done|].
      rewrite <- app_assoc. simpl.
      rewrite fmap_app, fmap_cons, <- Permutation_middle, <- fmap_app.
      apply NoDup_cons. split; [done|].
      rewrite fmap_app, fmap_cons, <- Permutation_middle in Hn.
      apply NoDup_cons in Hn as [_ Hn]. by rewrite fmap_app.
    + apply IH in H; [done|]. by rewrite <- app_assoc.
Qed.

Lemma List_filter_NoDup_fmap {A K : Type} (key : A -> K) (f : A -> bool)
    (l : list A) :
  NoDup (key <$> l) -> NoDup (key <$> List.filter f l).
Proof.
  induction l as [|r l IH]; [done|].
  rewrite fmap_cons, NoDup_cons. intros [Hr Hn]. simpl.
  destruct (f r); [|by apply IH].
  rewrite fmap_cons, NoDup_cons. split; [|by apply IH].
  intros Hin. apply Hr.
  apply list_elem_of_fmap in Hin as (r' & -> & Hr').
  apply list_elem_of_fmap. exists r'. split; [done|].
  apply list_elem_of_In, filter_In in Hr' as [Hr' _]. by apply list_elem_of_In.
Qed.

Lemma execute_projects_pkey (e : env) (st : statement) (d d' : db) :
  execute e st d = inr d' ->
  projects_pkey_unique (projects_table d) ->
  projects_pkey_unique (projects_table d').
Proof.
  destruct st; simpl; intros H Hn.
  - apply bind_inr in H as (us & _ & [= <-]). done.
  - injection H as <-. by apply List_filter_NoDup_fmap.
  - apply bind_inr in H as (ps & H & [= <-]). by eapply projects_insert_pkey.
  - apply bind_inr in H as (ps & H & [= <-]).
    by eapply projects_update_rows_pkey.
  - injection H as <-. by apply List_filter_NoDup_fmap.
Qed.

(** What accepted statements keep, refused ones keep too. *)
Lemma statement_invariant (I : db -> Prop) (d : db) (c : env * statement) :
  (forall e st d d', execute e st d = inr d' -> I d -> I d') ->
  I d -> I (run_statement d c).
Proof.
  intros Hex Hd. unfold run_statement.
  destruct (execute c.1 c.2 d) as [err|d'] eqn:E; [done|]. by eapply Hex.
Qed.

Lemma users_insert_unique (e : env) (v : users.values) (t t' : list users.row) :
  users.insert e v t = inr t' ->
  users_pkey_unique t /\ users_email_unique t ->
  users_pkey_unique t' /\ users_email_unique t'.
Proof.
  unfold users.insert, users_pkey_unique, users_email_unique.
  intros H [Hid Hem].
  apply bind_inr in H as (new & _ & H).
  destruct (users.pkey_taken new t) eqn:Ep; [done|].
  destruct (users.email_taken new t) eqn:Ee; [done|].
  injection H as <-. rewrite !fmap_app. split.
  - apply NoDup_app. split_and!; [done| |apply NoDup_singleton].
    intros k Hk [->|[]%elem_of_nil]%elem_of_cons.
    by apply (existsb_false_not_in users.id N.eqb _ _ N.eqb_refl) in Ep.
  - apply NoDup_app. split_and!; [done| |apply NoDup_singleton].
    intros k Hk [->|[]%elem_of_nil]%elem_of_cons.
    by apply (existsb_false_not_in users.email String.eqb _ _ String.eqb_refl)
      in Ee.
Qed.

Lemma execute_users_unique (e : env) (st : statement) (d d' : db) :
  execute e st d = inr d' ->
  users_pkey_unique (users_table d) /\ users_email_unique (users_table d) ->
  users_pkey_unique (users_table d') /\ users_email_unique (users_table d').
Proof.
  destruct st; simpl; intros H Hn.
  - apply bind_inr in H as (us & H & [= <-]). by eapply users_insert_unique.
  - injection H as <-. simpl. destruct Hn.
    split; by apply List_filter_NoDup_fmap.
  - apply bind_inr in H as (ps & _ & [= <-]). done.
  - apply bind_inr in H as (ps & _ & [= <-]). done.
  - injection H as <-. done.
Qed.

(** A project with its owner among the given users. *)
Definition has_owner (us : list users.row) (p : projects.row) : Prop :=
  exists u, u ∈ us /\ users.id u = projects.owner_id p.

Lemma owner_exists_has_owner (us : list users.row) (p : projects.row) :
  projects.owner_exists p us = true <-> has_owner us p.
Proof.
  unfold projects.owner_exists, has_owner. rewrite existsb_exists.
  split; intros (u & Hu & Hid); exists u.
  - apply N.eqb_eq in Hid. by rewrite <- list_elem_of_In in Hu.
  - rewrite <- list_elem_of_In. split; [done|]. by apply N.eqb_eq.
Qed.

Lemma update_rows_Forall (P : projects.row -> Prop) (e : env)
    (us : list users.row) (a : projects.assignments)
    (where_ : projects.row -> bool) (after before t' : list projects.row) :
  (forall old assigned others r,
     projects.assign a old = inr assigned ->
     projects.check us others (projects.update_updated_at_column e assigned)
     = inr r -> P r) ->
  projects.update_rows e us a where_ before after = inr t' ->
  Forall P (before ++ after) -> Forall P t'.
Proof.
  intros HP. revert before.
  induction after as [|old rest IH]; intros before H Hall.
  - injection H as <-. by rewrite app_nil_r in Hall.
  - simpl in H. apply Forall_app in Hall as [Hb Ha].
    apply Forall_cons in Ha as [Hold Hrest].
    destruct (where_ old).
    + apply bind_inr in H as (assigned & Has & H).
      apply bind_inr in H as (new & Hc & H).
      apply IH in H; [done|].
      rewrite !Forall_app, Forall_singleton. split_and!; try done.
      by eapply HP.
    + apply IH in H; [done|].
      rewrite !Forall_app, Forall_singleton. done.
Qed.

Lemma execute_references (e : env) (st : statement) (d d' : db) :
  execute e st d = inr d' ->
  owner_references_user d -> owner_references_user d'.
Proof.
  unfold owner_references_user.
  destruct st as [v|where_|v|a where_|where_]; simpl; intros H Href.
  - apply bind_inr in H as (us & H & [= <-]). simpl.
    unfold users.insert in H. apply bind_inr in H as (new & _ & H).
    destruct (users.pkey_taken new _); [done|].
    destruct (users.email_taken new _); [done|]. injection H as <-.
    intros p Hp. destruct (Href p Hp) as (u & Hu & Hid).
    exists u. split; [|done]. apply elem_of_app. by left.
  - injection H as <-. simpl. intros p Hp.
    unfold projects.delete in Hp.
    apply list_elem_of_In, filter_In in Hp as [Hp Hkeep].
    apply list_elem_of_In in Hp. destruct (Href p Hp) as (u & Hu & Hid).
    exists u. split; [|done].
    apply list_elem_of_In, filter_In. split; [by apply list_elem_of_In|].
    apply negb_true_iff. apply negb_true_iff in Hkeep.
    destruct (where_ u) eqn:Ew; [|done]. exfalso.
    apply not_true_iff_false in Hkeep. apply Hkeep.
    apply existsb_exists. exists u. split.
    + apply filter_In. split; [by apply list_elem_of_In|done].
    + by apply N.eqb_eq.
  - apply bind_inr in H as (ps & H & [= <-]). simpl.
    unfold projects.insert in H.
    apply bind_inr in H as (new & H & [= <-]).
    apply bind_inr in H as (built & _ & H).
    apply check_passed in H as (-> & _ & _ & Ho%owner_exists_has_owner).
    intros p [Hp|Hp%list_elem_of_singleton]%elem_of_app;
      [by apply Href|by subst p].
  - apply bind_inr in H as (ps & H & [= <-]). simpl.
    apply Forall_forall.
    eapply (update_rows_Forall (has_owner (users_table d))); [|done|].
    + intros old assigned others r _ Hc.
      by apply check_passed in Hc as (-> & _ & _ & Ho%owner_exists_has_owner).
    + by apply Forall_forall.
  - injection H as <-. simpl. intros p Hp. apply Href.
    unfold projects.delete in Hp.
    apply list_elem_of_In, filter_In in Hp as [Hp _]. by apply list_elem_of_In.
Qed.

Lemma update_rows_updated_to (e : env) (us : list users.row)
    (a : projects.assignments) (where_ : projects.row -> bool)
    (after before t' : list projects.row) :
  projects.update_rows e us a where_ before after = inr t' ->
  exists after', t' = before ++ after'
                 /\ Forall2 (updated_to e a where_) after after'.
Proof.
  revert before. induction after as [|old rest IH]; intros before H.
  - injection H as <-. exists []. by rewrite app_nil_r.
  - simpl in H. destruct (where_ old) eqn:Ew.
    + apply bind_inr in H as (assigned & Has & H).
      apply bind_inr in H as (new & Hc & H).
      apply check_passed in Hc as (-> & _).
      destruct (IH _ H) as (after' & -> & Hall).
      eexists (_ :: after'). rewrite <- app_assoc. split; [done|].
      constructor; [|done]. unfold updated_to. rewrite Ew. by eexists.
    + destruct (IH _ H) as (after' & -> & Hall).
      exists (old :: after'). rewrite <- app_assoc. split; [done|].
      constructor; [|done]. unfold updated_to. by rewrite Ew.
Qed.

Lemma assign_inr_not_null (a : projects.assignments) (old r : projects.row) :
  projects.assign a old = inr r ->
  projects.set_id a <> Some None /\ projects.set_name a <> Some None
  /\ projects.set_database_type a <> Some None
  /\ projects.set_database_name a <> Some None
  /\ projects.set_owner_id a <> Some None.
Proof.
  unfold projects.assign. intros H.
  apply bind_inr in H as (id' & Hid & H).
  apply bind_inr in H as (name' & Hn & H).
  apply bind_inr in Hn as (n0 & Hn & _).
  apply bind_inr in H as (kind' & Hk & H).
  apply bind_inr in Hk as (k0 & Hk & _).
  apply bind_inr in H as (dbname' & Hd & H).
  apply bind_inr in Hd as (d0 & Hd & _).
  apply bind_inr in H as (cid' & _ & H).
  apply bind_inr in H as (owner' & Ho & _).
  split_and!; intros E; rewrite E in *; done.
Qed.

Lemma build_inr_supplied (e : env) (v : projects.values) (r : projects.row) :
  projects.build e v = inr r ->
  is_Some (projects.v_name v) /\ is_Some (projects.v_database_type v)
  /\ is_Some (projects.v_database_name v) /\ is_Some (projects.v_owner_id v).
Proof.
  unfold projects.build. intros H.
  apply bind_inr in H as (name' & Hn & H).
  apply bind_inr in Hn as (n0 & Hn & _).
  apply bind_inr in H as (kind' & Hk & H).
  apply bind_inr in Hk as (k0 & Hk & _).
  apply bind_inr in H as (dbname' & Hd & H).
  apply bind_inr in Hd as (d0 & Hd & _).
  apply bind_inr in H as (cid' & _ & H).
  apply bind_inr in H as (owner' & Ho & _).
  unfold not_null in *.
  destruct (projects.v_name v), (projects.v_database_type v),
    (projects.v_database_name v), (projects.v_owner_id v); try done.
Qed.




End RegistryFacts.

Lemma build_id (e : InitSql.env) (v : InitSql.projects.values)
    (r : InitSql.projects.row) :
  InitSql.projects.build e v = inr r ->
  InitSql.projects.id r
  = default (InitSql.uuid_generate_v4 e) (InitSql.projects.v_id v).
Proof.
  unfold InitSql.projects.build. intros H.
  apply bind_inr in H as (name' & _ & H).
  apply bind_inr in H as (kind' & _ & H).
  apply bind_inr in H as (dbname' & _ & H).
  apply bind_inr in H as (cid' & _ & H).
  by apply bind_inr in H as (owner' & _ & [= <-]).
Qed.

(** X1: the primary key of [projects]: no two rows of the table have
    the same [id], after any session and across any accepted statement,
    and an [INSERT] whose id (given, or generated by
    [uuid_generate_v4()]) is that of an existing row is refused. *)
Theorem projects_primary_key_unique :
  (forall session : list (InitSql.env * InitSql.statement),
     InitSql.projects_pkey_unique
       (InitSql.projects_table (InitSql.run session)))
  /\ (forall (e : InitSql.env) (st : InitSql.statement) (d d' : InitSql.db),
        InitSql.projects_pkey_unique (InitSql.projects_table d) ->
        InitSql.execute e st d = inr d' ->
        InitSql.projects_pkey_unique (InitSql.projects_table d'))
  /\ (forall (e : InitSql.env) (v : InitSql.projects.values)
             (d : InitSql.db) (r : InitSql.projects.row),
        r ∈ InitSql.projects_table d ->
        default (InitSql.uuid_generate_v4 e) (InitSql.projects.v_id v)
        = InitSql.projects.id r ->
        exists err : InitSql.sql_error,
          InitSql.execute e (InitSql.INSERT_INTO_projects v) d = inl err).
Proof.
  split_and!.
  - intros session.
    apply (session_invariant
             (fun d =>
                InitSql.projects_pkey_unique (InitSql.projects_table d))).
    + constructor.
    + intros d c Hd.
      apply (statement_invariant
               (fun d =>
                  InitSql.projects_pkey_unique (InitSql.projects_table d)));
        [|done].
      intros e st d0 d' He Hd0. by eapply execute_projects_pkey.
  - intros e st d d' Hd He. by eapply execute_projects_pkey.
  - intros e v d r Hr Hid. simpl. unfold InitSql.projects.insert.
    destruct (InitSql.projects.build e v) as [err|new] eqn:Eb;
      [by exists err|].
    simpl. unfold InitSql.projects.check.
    assert (InitSql.projects.pkey_taken new (InitSql.projects_table d) = true)
      as ->; [|by eexists].
    apply existsb_exists. exists r. split; [by apply list_elem_of_In|].
    apply N.eqb_eq. by rewrite (build_id _ _ _ Eb).
Qed.

Lemma projects_primary_key_unique_witness :
  exists err : InitSql.sql_error,
    InitSql.execute (InitSql.session_env 11)
      (InitSql.INSERT_INTO_projects (InitSql.project_of_alice "blog" "mysql"))
      InitSql.alice_with_shop = inl err.
Proof.
  eapply (proj2 (proj2 projects_primary_key_unique)).
  - apply list_elem_of_In. vm_compute. left. reflexivity.
  - vm_compute. reflexivity.
Defined.

(** X2: the keys of [users]: no two rows have the same [id] and no two
    the same [email], after any session and across any accepted
    statement. *)
Theorem users_keys_unique :
  (forall session : list (InitSql.env * InitSql.statement),
     InitSql.users_pkey_unique (InitSql.users_table (InitSql.run session))
     /\ InitSql.users_email_unique
          (InitSql.users_table (InitSql.run session)))
  /\ (forall (e : InitSql.env) (st : InitSql.statement) (d d' : InitSql.db),
        InitSql.users_pkey_unique (InitSql.users_table d) ->
        InitSql.users_email_unique (InitSql.users_table d) ->
        InitSql.execute e st d = inr d' ->
        InitSql.users_pkey_unique (InitSql.users_table d')
        /\ InitSql.users_email_unique (InitSql.users_table d')).
Proof.
  split.
  - intros session.
    apply (session_invariant
             (fun d =>
                InitSql.users_pkey_unique (InitSql.users_table d)
                /\ InitSql.users_email_unique (InitSql.users_table d))).
    + split; constructor.
    + intros d c Hd.
      apply (statement_invariant
               (fun d =>
                  InitSql.users_pkey_unique (InitSql.users_table d)
                  /\ InitSql.users_email_unique (InitSql.users_table d)));
        [|done].
      intros e st d0 d' He Hd0. by eapply execute_users_unique.
  - intros e st d d' Hid Hem He. by eapply execute_users_unique.
Qed.

Lemma users_keys_unique_witness :
  exists d' : InitSql.db,
    InitSql.execute (InitSql.session_env 12)
      (InitSql.INSERT_INTO_users
         (InitSql.users.mkValues None (Some "bob@example.com")
            (Some "$2b$12$Zq1") None None None None None))
      InitSql.alice_with_shop = inr d'
    /\ InitSql.users_pkey_unique (InitSql.users_table d')
    /\ InitSql.users_email_unique (InitSql.users_table d').
Proof.
  eexists. split; [vm_compute; reflexivity|].
  apply (proj2 users_keys_unique (InitSql.session_env 12)
           (InitSql.INSERT_INTO_users
              (InitSql.users.mkValues None (Some "bob@example.com")
                 (Some "$2b$12$Zq1") None None None None None))
           InitSql.alice_with_shop).
  - apply (bool_decide_unpack _). vm_compute. exact I.
  - apply (bool_decide_unpack _). vm_compute. exact I.
  - vm_compute. reflexivity.
Defined.

(** X3: the foreign key of [projects]: every project row has its
    [owner_id] among the [id]s of [users], after any session and across
    any accepted statement, the deletion of users included, since it
    takes their projects along. *)
Theorem owner_reference_kept :
  (forall session : list (InitSql.env * InitSql.statement),
     InitSql.owner_references_user (InitSql.run session))
  /\ (forall (e : InitSql.env) (st : InitSql.statement) (d d' : InitSql.db),
        InitSql.owner_references_user d ->
        InitSql.execute e st d = inr d' ->
        InitSql.owner_references_user d').
Proof.
  split.
  - intros session. apply (session_invariant InitSql.owner_references_user).
    + intros p Hp. by apply elem_of_nil in Hp.
    + intros d c Hd.
      apply (statement_invariant
               InitSql.owner_references_user); [|done].
      intros e st d0 d' He Hd0. by eapply execute_references.
  - intros e st d d' Hd He. by eapply execute_references.
Qed.

Lemma owner_reference_kept_witness :
  exists d' : InitSql.db,
    InitSql.execute (InitSql.session_env 12)
      (InitSql.DELETE_FROM_users
         (fun u => String.eqb (InitSql.users.email u) "alice@example.com"))
      InitSql.alice_with_shop = inr d'
    /\ InitSql.owner_references_user d'.
Proof.
  eexists. split; [vm_compute; reflexivity|].
  apply (proj2 owner_reference_kept (InitSql.session_env 12)
           (InitSql.DELETE_FROM_users
              (fun u => String.eqb (InitSql.users.email u) "alice@example.com"))
           InitSql.alice_with_shop).
  - intros p Hp. vm_compute in Hp.
    apply list_elem_of_singleton in Hp as ->.
    eexists. split; [apply list_elem_of_In; vm_compute; left|]; reflexivity.
  - vm_compute. reflexivity.
Defined.

(** X4: an accepted [UPDATE projects] keeps the number and the order of
    the rows and leaves [users] alone; a row outside the [WHERE] clause
    stays exactly as it was, and a row inside it ends with [updated_at]
    at [CURRENT_TIMESTAMP], whatever the [SET] list says of that
    column, since the trigger runs after the assignment. *)
Theorem update_stamps_matched_rows
    (e : InitSql.env) (a : InitSql.projects.assignments)
    (where_ : InitSql.projects.row -> bool) (d d' : InitSql.db) :
  InitSql.execute e (InitSql.UPDATE_projects a where_) d = inr d' ->
  InitSql.users_table d' = InitSql.users_table d
  /\ Forall2 (InitSql.updated_to e a where_)
       (InitSql.projects_table d) (InitSql.projects_table d')
  /\ length (InitSql.projects_table d') = length (InitSql.projects_table d)
  /\ (forall (i : nat) (old : InitSql.projects.row),
        InitSql.projects_table d !! i = Some old -> where_ old = false ->
        InitSql.projects_table d' !! i = Some old)
  /\ (forall (i : nat) (old : InitSql.projects.row),
        InitSql.projects_table d !! i = Some old -> where_ old = true ->
        exists new : InitSql.projects.row,
          InitSql.projects_table d' !! i = Some new
          /\ InitSql.projects.updated_at new
             = Some (InitSql.CURRENT_TIMESTAMP e)).
Proof.
  simpl. intros H. apply bind_inr in H as (ps & H & [= <-]). simpl.
  apply update_rows_updated_to in H as (after' & -> & Hall). simpl.
  split_and!; [done|done|by erewrite <- Forall2_length|..].
  - intros i old Hi Hw.
    destruct (Forall2_lookup_l _ _ _ _ _ Hall Hi) as (new & Hnew & Hup).
    unfold InitSql.updated_to in Hup. rewrite Hw in Hup. by subst new.
  - intros i old Hi Hw.
    destruct (Forall2_lookup_l _ _ _ _ _ Hall Hi) as (new & Hnew & Hup).
    unfold InitSql.updated_to in Hup. rewrite Hw in Hup.
    destruct Hup as (assigned & _ & ->). by exists
      (InitSql.projects.update_updated_at_column e assigned).
Qed.

Lemma update_stamps_matched_rows_witness :
  exists d' : InitSql.db,
    InitSql.execute (InitSql.session_env 20)
      (InitSql.UPDATE_projects (InitSql.rename_to "store")
         (fun r => String.eqb (InitSql.projects.name r) "shop"))
      InitSql.alice_with_shop = inr d'
    /\ exists new : InitSql.projects.row,
         InitSql.projects_table d' !! 0 = Some new
         /\ InitSql.projects.updated_at new = Some 20%Z.
Proof.
  destruct (InitSql.execute (InitSql.session_env 20)
              (InitSql.UPDATE_projects (InitSql.rename_to "store")
                 (fun r => String.eqb (InitSql.projects.name r) "shop"))
              InitSql.alice_with_shop) as [err|d'] eqn:E.
  - vm_compute in E. discriminate E.
  - exists d'. split; [reflexivity|].
    eapply (proj2 (proj2 (proj2 (proj2
              (update_stamps_matched_rows _ _ _ _ _ E)))) 0).
    + vm_compute. reflexivity.
    + vm_compute. reflexivity.
Defined.

(** X6: the [NOT NULL] columns of [projects] without a default: an
    [INSERT] that leaves out [name], [database_type], [database_name] or
    [owner_id] is refused, and so is an [UPDATE] that sets one of them,
    or [id], to [NULL] as soon as its [WHERE] clause selects a row; the
    database then stays as it was. *)
Theorem required_columns_enforced (e : InitSql.env) (d : InitSql.db) :
  (forall v : InitSql.projects.values,
     InitSql.projects.v_name v = None
     \/ InitSql.projects.v_database_type v = None
     \/ InitSql.projects.v_database_name v = None
     \/ InitSql.projects.v_owner_id v = None ->
     (exists err : InitSql.sql_error,
        InitSql.execute e (InitSql.INSERT_INTO_projects v) d = inl err)
     /\ InitSql.run_statement d (e, InitSql.INSERT_INTO_projects v) = d)
  /\ (forall (a : InitSql.projects.assignments)
             (where_ : InitSql.projects.row -> bool),
        InitSql.projects.set_id a = Some None
        \/ InitSql.projects.set_name a = Some None
        \/ InitSql.projects.set_database_type a = Some None
        \/ InitSql.projects.set_database_name a = Some None
        \/ InitSql.projects.set_owner_id a = Some None ->
        (exists p : InitSql.projects.row,
           p ∈ InitSql.projects_table d /\ where_ p = true) ->
        (exists err : InitSql.sql_error,
           InitSql.execute e (InitSql.UPDATE_projects a where_) d = inl err)
        /\ InitSql.run_statement d (e, InitSql.UPDATE_projects a where_) = d).
Proof.
  split.
  - intros v Hnull. unfold InitSql.run_statement. simpl fst. simpl snd.
    destruct (InitSql.execute e (InitSql.INSERT_INTO_projects v) d)
      as [err|d'] eqn:E; [split; [by exists err|done]|].
    exfalso. simpl in E. apply bind_inr in E as (ps & E & _).
    unfold InitSql.projects.insert in E.
    apply bind_inr in E as (new & E & _).
    apply bind_inr in E as (built & E & _).
    apply build_inr_supplied in E as ([? Hn] & [? Hk] & [? Hd] & [? Ho]).
    destruct Hnull as [Hx|[Hx|[Hx|Hx]]]; congruence.
  - intros a where_ Hnull (p & Hp & Hw).
    unfold InitSql.run_statement. simpl fst. simpl snd.
    destruct (InitSql.execute e (InitSql.UPDATE_projects a where_) d)
      as [err|d'] eqn:E; [split; [by exists err|done]|].
    exfalso. simpl in E. apply bind_inr in E as (ps & E & _).
    apply update_rows_updated_to in E as (after' & _ & Hall).
    apply list_elem_of_lookup in Hp as [i Hi].
    destruct (Forall2_lookup_l _ _ _ _ _ Hall Hi) as (new & _ & Hup).
    unfold InitSql.updated_to in Hup. rewrite Hw in Hup.
    destruct Hup as (assigned & Has & _).
    apply assign_inr_not_null in Has as (? & ? & ? & ? & ?).
    destruct Hnull as [Hx|[Hx|[Hx|[Hx|Hx]]]]; congruence.
Qed.

Lemma required_columns_enforced_witness :
  (exists err : InitSql.sql_error,
     InitSql.execute (InitSql.session_env 12)
       (InitSql.UPDATE_projects
          (InitSql.projects.mkAssignments None (Some None) None None None
             None None None None None)
          (fun _ => true))
       InitSql.alice_with_shop = inl err)
  /\ InitSql.run_statement InitSql.alice_with_shop
       (InitSql.session_env 12,
        InitSql.UPDATE_projects
          (InitSql.projects.mkAssignments None (Some None) None None None
             None None None None None)
          (fun _ => true))
     = InitSql.alice_with_shop.
Proof.
  apply (proj2 (required_columns_enforced (InitSql.session_env 12)
                  InitSql.alice_with_shop)).
  - right. left. reflexivity.
  - eexists. split; [apply list_elem_of_In; vm_compute; left|]; reflexivity.
Defined.



(** A name of 100 characters that takes 300 bytes is stored as given;
    one of 256 characters is refused, and 255 characters followed by
    spaces are stored without the spaces. *)
Example name_of_300_bytes_stored :
  String.length (InitSql.kana 100) = 300
  /\ InitSql.char_length (InitSql.kana 100) = 100
  /\ InitSql.projects.name
       <$> InitSql.projects_table
             (InitSql.run_statement InitSql.alice_with_shop
                (InitSql.session_env 12,
                 InitSql.INSERT_INTO_projects
                   (InitSql.project_of_alice (InitSql.kana 100) "mysql")))
     = ["shop"; InitSql.kana 100].
Proof. vm_compute. done. Qed.

Example name_of_256_characters_refused :
  InitSql.varchar 255 "name" (InitSql.kana 256)
  = inl (InitSql.string_data_right_truncation "name")
  /\ InitSql.varchar 255 "name" (InitSql.kana 255 ++ "   ")%string
     = inr (InitSql.kana 255).
Proof. vm_compute. done. Qed.

(** * Further properties of the new-project wizard *)

Lemma dropWhile_nil {A : Type} (f : A -> bool) (l : list A) :
  Js.dropWhile f l = [] <-> Forall (fun x => f x = true) l.
Proof.
  induction l as [|x l IH]; simpl; [done|].
  rewrite Forall_cons. destruct (f x); [rewrite IH; tauto|].
  split; [done | by intros [? _]].
Qed.

Lemma dropWhile_keeps {A : Type} (P : A -> Prop) (f : A -> bool)
    (l : list A) :
  Forall P l -> Forall P (Js.dropWhile f l).
Proof.
  induction l as [|x l IH]; simpl; [done|].
  intros H. destruct (f x); [|done]. apply IH.
  by apply Forall_cons in H as [_ H].
Qed.

Lemma dropWhile_Forall {A : Type} (f : A -> bool) (l : list A) :
  Forall (fun x => f x = true) (Js.dropWhile f l)
  <-> Forall (fun x => f x = true) l.
Proof.
  split; [|apply dropWhile_keeps].
  induction l as [|x l IH]; simpl; [done|].
  destruct (f x) eqn:E; [|done]. intros H. apply Forall_cons. auto.
Qed.

Lemma codePoints_nonempty (s : string) :
  Forall (fun sequence => sequence <> "") (Js.codePoints s).
Proof.
  induction s as [|a s IH]; simpl; [constructor|].
  destruct (Js.continues s).
  - destruct (Js.codePoints s) as [|first others].
    + by repeat constructor.
    + apply Forall_cons in IH as [_ IH]. by constructor.
  - by constructor.
Qed.

(** Splitting a string into its code points loses nothing. *)
Lemma join_codePoints (s : string) : Js.join (Js.codePoints s) = s.
Proof.
  induction s as [|a s IH]; simpl; [done|].
  destruct (Js.continues s) eqn:E.
  - destruct (Js.codePoints s) as [|first others]; simpl in *.
    + by rewrite <- IH.
    + rewrite append_String. by rewrite IH.
  - simpl. rewrite append_String. by rewrite IH.
Qed.

Lemma join_nil (pieces : list string) :
  Forall (fun sequence => sequence <> "") pieces ->
  Js.join pieces = "" <-> pieces = [].
Proof.
  intros H. split; [|by intros ->].
  destruct H as [|[|a first] others Hfirst _]; [done..|].
  simpl. by rewrite append_String.
Qed.

Lemma Forall_rev_iff {A : Type} (P : A -> Prop) (l : list A) :
  Forall P (rev l) <-> Forall P l.
Proof.
  split; [|apply Forall_rev].
  intros H. rewrite <- (rev_involutive l). by apply Forall_rev.
Qed.

(** [trim] leaves nothing exactly of the strings of white space. *)
Lemma trim_blank (s : string) : Js.trim s = "" <-> Js.blank s.
Proof.
  unfold Js.trim, Js.blank. rewrite join_nil.
  - rewrite <- (dropWhile_Forall Js.white (Js.codePoints s)).
    rewrite <- (Forall_rev_iff _ (Js.dropWhile Js.white (Js.codePoints s))).
    rewrite <- dropWhile_nil.
    split; [|by intros ->].
    intros H. apply (f_equal (@rev string)) in H.
    by rewrite rev_involutive in H.
  - apply Forall_rev, dropWhile_keeps, Forall_rev, dropWhile_keeps,
      codePoints_nonempty.
Qed.

Lemma truthy_true (s : string) : Js.truthy s = true <-> s <> "".
Proof.
  unfold Js.truthy. rewrite negb_true_iff.
  destruct (String.eqb_spec s ""); split; congruence.
Qed.


#[global] Instance blank_dec (s : string) : Decision (Js.blank s).
Proof. unfold Js.blank. apply _. Defined.

Ltac run_handlers :=
  unfold NewProjectPage.handleProjectSubmit,
    NewProjectPage.testConnection_request,
    NewProjectPage.testConnection_reply,
    NewProjectPage.handleCreateProject_request,
    NewProjectPage.handleCreateProject_reply,
    NewProjectPage.handleDatabaseTypeChange, NewProjectPage.onChange,
    NewProjectPage.handle, NewProjectPage.exec, NewProjectPage.rendered,
    NewProjectPage.setStep, NewProjectPage.setIsLoading,
    NewProjectPage.setConnectionStatus, NewProjectPage.setError,
    NewProjectPage.setProjectData, NewProjectPage.setConnectionData,
    mbind, mret, NewProjectPage.Handler_bind, NewProjectPage.Handler_ret in *;
  simpl in *.

(** X8: [handleProjectSubmit] moves to the second step exactly when the
    project name has a character that is not white space, clearing the
    error message; for a name of white space only (or empty) it stays on
    the step it is on and shows "Project name is required".  Either way
    the form data, the connection status and the loading flag are left
    as they were. *)
Theorem handleProjectSubmit_requires_name (s : NewProjectPage.State) :
  let s' := NewProjectPage.exec NewProjectPage.handleProjectSubmit s in
  (Js.blank (NewProjectPage.name (NewProjectPage.projectData s)) ->
   NewProjectPage.step s' = NewProjectPage.step s
   /\ NewProjectPage.error s' = "Project name is required")
  /\ (~ Js.blank (NewProjectPage.name (NewProjectPage.projectData s)) ->
      NewProjectPage.step s' = 2 /\ NewProjectPage.error s' = "")
  /\ NewProjectPage.projectData s' = NewProjectPage.projectData s
  /\ NewProjectPage.connectionData s' = NewProjectPage.connectionData s
  /\ NewProjectPage.connectionStatus s' = NewProjectPage.connectionStatus s
  /\ NewProjectPage.isLoading s' = NewProjectPage.isLoading s.
Proof.
  destruct s as [st [n d t] c l cs e].
  cbv zeta. unfold NewProjectPage.handleProjectSubmit, NewProjectPage.exec,
    mbind, NewProjectPage.Handler_bind, NewProjectPage.rendered.
  simpl. rewrite <- (trim_blank n).
  destruct (Js.truthy (Js.trim n)) eqn:E; simpl.
  - apply truthy_true in E. split_and!; done.
  - apply truthy_false in E. split_and!; done.
Qed.

(** A name made of a space, an ideographic space (U+3000) and a
    no-break space (U+00A0) is refused. *)
Lemma handleProjectSubmit_requires_name_witness :
  NewProjectPage.step
    (NewProjectPage.exec NewProjectPage.handleProjectSubmit
       (NewProjectPage.run
          [NewProjectPage.Typed NewProjectPage.field_name
             Js.spaces_of_3_kinds]))
  = 1
  /\ NewProjectPage.error
       (NewProjectPage.exec NewProjectPage.handleProjectSubmit
          (NewProjectPage.run
             [NewProjectPage.Typed NewProjectPage.field_name
                Js.spaces_of_3_kinds]))
     = "Project name is required".
Proof.
  apply (proj1 (handleProjectSubmit_requires_name
                  (NewProjectPage.run
                     [NewProjectPage.Typed NewProjectPage.field_name
                        Js.spaces_of_3_kinds]))).
  apply (bool_decide_unpack _). vm_compute. exact I.
Defined.

(** A zero-width space (U+200B) is not white space: such a name goes
    through. *)
Example zero_width_name_accepted :
  NewProjectPage.step
    (NewProjectPage.exec NewProjectPage.handleProjectSubmit
       (NewProjectPage.run
          [NewProjectPage.Typed NewProjectPage.field_name
             (Js.fromCodePoint 8203)]))
  = 2.
Proof. vm_compute. reflexivity. Qed.



Section WizardFacts.
Import NewProjectPage.

Lemma app_not_nil {A : Type} (l : list A) (x : A) : l ++ [x] <> [].
Proof. by destruct l. Qed.

Lemma submit_keeps_or_advances (s : State) :
  let s' := exec handleProjectSubmit s in
  (Js.blank (name (projectData s)) -> step s' = step s)
  /\ (~ Js.blank (name (projectData s)) -> step s' = 2)
  /\ projectData s' = projectData s
  /\ connectionData s' = connectionData s
  /\ connectionStatus s' = connectionStatus s
  /\ isLoading s' = isLoading s.
Proof.
  destruct s as [st [n d t] c l cs e].
  cbv zeta. unfold handleProjectSubmit, exec, mbind, Handler_bind, rendered.
  simpl. rewrite <- (trim_blank n).
  destruct (Js.truthy (Js.trim n)) eqn:E; simpl.
  - apply truthy_true in E. split_and!; done.
  - apply truthy_false in E. split_and!; done.
Qed.

(** Every action the page offers keeps the wizard sound. *)
Lemma act_ok (f : Flow) (a : Action) : wizard_ok f -> wizard_ok (act f a).
Proof.
  unfold act. destruct (enabled a f) eqn:En; [|done].
  destruct f as [[st [n d t] c l cs e] tp cp ts ps pu].
  unfold wizard_ok, enabled in *. simpl in *.
  apply andb_true_iff in En as [_ En].
  intros (Hstep & Hname & Htp & Hcp & Hsucc & Hposted & Hall).
  destruct a as [[fld v|ty]| | |r| | |r]; simpl.
  - destruct fld; simpl in En; apply Nat.eqb_eq in En; subst st;
      run_handlers; split_and!; try done; try (by intros [=]).
  - apply Nat.eqb_eq in En; subst st. run_handlers.
    split_and!; try done; try (by intros [=]).
  - apply andb_true_iff in En as [->%Nat.eqb_eq _].
    destruct (submit_keeps_or_advances
                (mkState 1 (mkProjectData n d t) c l cs e))
      as (Hb & Hnb & Hpd & Hcd & Hcs & Hl).
    simpl in *. rewrite Hcs, Hl, Hpd.
    destruct (decide (Js.blank n)) as [Hbl|Hbl].
    + rewrite (Hb Hbl). split_and!; try done; by left.
    + rewrite (Hnb Hbl). split_and!; try done; by right.
  - apply andb_true_iff in En as [->%Nat.eqb_eq _]. run_handlers.
    split_and!; try done; try (intros _; apply app_not_nil); by right.
  - rewrite Htp in En. destruct cs; try done.
    destruct r as [b|[| |message]|]; run_handlers; split_and!; try done;
      intros _; by apply Hsucc.
  - run_handlers. split_and!; try done; by left.
  - apply andb_true_iff in En as [[->%Nat.eqb_eq Hen]%andb_true_iff Hfilled].
    apply negb_true_iff, orb_false_iff in Hen as [-> Hs%negb_false_iff].
    destruct cs; try done.
    run_handlers. split_and!; try done; try (by right); auto.
    apply Forall_app. split; [done|]. apply Forall_singleton.
    split; [by apply Hname|done].
  - destruct r as [[| |id]|[| |message]|]; run_handlers; split_and!; done.
Qed.

Lemma flow_ok (actions : list Action) : wizard_ok (flow actions).
Proof.
  unfold flow.
  assert (forall f, wizard_ok f -> wizard_ok (fold_left act actions f))
    as Hfold.
  { induction actions as [|a actions IH]; intros f Hf; [done|].
    simpl. by apply IH, act_ok. }
  apply Hfold. unfold wizard_ok. simpl.
  split_and!; try done; try (by left); constructor.
Qed.
End WizardFacts.

(** X10: whatever the user does on the wizard (typing, selecting,
    submitting, testing, going back, in any order, with requests ending
    in any way), the step is 1 or 2 and is 2 only with a project name
    that is not blank; every creation request that was sent carries such
    a name and a connection with all five fields filled in, and was sent
    after at least one connection test; a creation request is under way
    exactly while the loading flag is on, and a test exactly while the
    status is ['testing']. *)
Theorem wizard_flow_safe (actions : list NewProjectPage.Action) :
  let f := NewProjectPage.flow actions in
  (NewProjectPage.step (NewProjectPage.ui f) = 1
   \/ NewProjectPage.step (NewProjectPage.ui f) = 2)
  /\ (NewProjectPage.step (NewProjectPage.ui f) = 2 ->
      ~ Js.blank
          (NewProjectPage.name
             (NewProjectPage.projectData (NewProjectPage.ui f))))
  /\ Forall NewProjectPage.sound_body (NewProjectPage.posted f)
  /\ (NewProjectPage.posted f <> [] -> NewProjectPage.tested f <> [])
  /\ NewProjectPage.createPending f
     = NewProjectPage.isLoading (NewProjectPage.ui f)
  /\ NewProjectPage.testPending f
     = NewProjectPage.is_testing
         (NewProjectPage.connectionStatus (NewProjectPage.ui f)).
Proof.
  cbv zeta.
  destruct (flow_ok actions) as (H1 & H2 & H3 & H4 & H5 & H6 & H7).
  done.
Qed.

Lemma wizard_flow_safe_witness :
  ~ Js.blank
      (NewProjectPage.name
         (NewProjectPage.projectData
            (NewProjectPage.ui
               (NewProjectPage.flow
                  [ NewProjectPage.Input
                      (NewProjectPage.Typed NewProjectPage.field_name "  ");
                    NewProjectPage.SubmitDetails;
                    NewProjectPage.Input
                      (NewProjectPage.Typed NewProjectPage.field_name " shop");
                    NewProjectPage.SubmitDetails ])))).
Proof.
  apply (proj1 (proj2 (wizard_flow_safe
           [ NewProjectPage.Input
               (NewProjectPage.Typed NewProjectPage.field_name "  ");
             NewProjectPage.SubmitDetails;
             NewProjectPage.Input
               (NewProjectPage.Typed NewProjectPage.field_name " shop");
             NewProjectPage.SubmitDetails ]))).
  vm_compute. reflexivity.
Defined.

(** X11: a successful connection test is not tied to the connection it
    tested.  On the second step, with the status ['success'] and nothing
    loading, the user can retype all five connection fields to any
    filled-in values and submit: the creation request then carries the
    retyped connection, and no test request was sent for it. *)
Theorem tested_connection_can_be_replaced
    (f : NewProjectPage.Flow) (c : NewProjectPage.DatabaseConnection) :
  NewProjectPage.pushed f = None ->
  NewProjectPage.step (NewProjectPage.ui f) = 2 ->
  NewProjectPage.connectionStatus (NewProjectPage.ui f)
  = NewProjectPage.status_success ->
  NewProjectPage.isLoading (NewProjectPage.ui f) = false ->
  NewProjectPage.filled c = true ->
  let f' :=
    fold_left NewProjectPage.act (NewProjectPage.retype_and_create c) f in
  NewProjectPage.posted f'
  = NewProjectPage.posted f
    ++ [ {| NewProjectPage.cp_project :=
              NewProjectPage.projectData (NewProjectPage.ui f);
            NewProjectPage.cp_connection := c |} ]
  /\ NewProjectPage.tested f' = NewProjectPage.tested f.
Proof.
  destruct f as [[st pd cd l cs e] tp cp ts ps pu].
  destruct c as [h p d u w]. simpl.
  intros -> -> -> -> Hfilled.
  unfold NewProjectPage.act, NewProjectPage.enabled. simpl.
  unfold NewProjectPage.filled in *. simpl in *. rewrite Hfilled.
  simpl. done.
Qed.

Lemma tested_connection_can_be_replaced_witness :
  let tested_then_edited :=
    fold_left NewProjectPage.act
      (NewProjectPage.retype_and_create
         (NewProjectPage.mkDatabaseConnection
            "other.internal" "5432" "prod" "admin" "secret"))
      (NewProjectPage.flow
         [ NewProjectPage.Input
             (NewProjectPage.Typed NewProjectPage.field_name "shop");
           NewProjectPage.SubmitDetails;
           NewProjectPage.Input
             (NewProjectPage.Typed NewProjectPage.field_host "localhost");
           NewProjectPage.ClickTest;
           NewProjectPage.TestReplied
             (NewProjectPage.replied_ok (NewProjectPage.json_value tt)) ]) in
  NewProjectPage.host
    <$> (NewProjectPage.cp_connection
           <$> NewProjectPage.posted tested_then_edited)
  = ["other.internal"]
  /\ NewProjectPage.host
       <$> (NewProjectPage.tc_connection
              <$> NewProjectPage.tested tested_then_edited)
     = ["localhost"].
Proof.
  cbv zeta.
  destruct (tested_connection_can_be_replaced
              (NewProjectPage.flow
                 [ NewProjectPage.Input
                     (NewProjectPage.Typed NewProjectPage.field_name "shop");
                   NewProjectPage.SubmitDetails;
                   NewProjectPage.Input
                     (NewProjectPage.Typed NewProjectPage.field_host
                        "localhost");
                   NewProjectPage.ClickTest;
                   NewProjectPage.TestReplied
                     (NewProjectPage.replied_ok
                        (NewProjectPage.json_value tt)) ])
              (NewProjectPage.mkDatabaseConnection
                 "other.internal" "5432" "prod" "admin" "secret")
              eq_refl eq_refl eq_refl eq_refl eq_refl) as [Hposted Htested].
  rewrite Hposted, Htested. split; vm_compute; reflexivity.
Defined.

(** * Further properties of the projects listing *)

Lemma List_filter_sublist {A : Type} (f : A -> bool) (l : list A) :
  List.filter f l `sublist_of` l.
Proof.
  induction l as [|x l IH]; [done|]. simpl.
  destruct (f x); [by apply sublist_skip | by apply sublist_cons].
Qed.

Lemma List_filter_sublist_impl {A : Type} (f g : A -> bool) (l : list A) :
  (forall x, g x = true -> f x = true) ->
  List.filter g l `sublist_of` List.filter f l.
Proof.
  intros Hgf. induction l as [|x l IH]; [done|]. simpl.
  destruct (g x) eqn:Eg.
  - rewrite (Hgf x Eg). by apply sublist_skip.
  - destruct (f x); [by apply sublist_cons | done].
Qed.

Lemma List_filter_idemp {A : Type} (f : A -> bool) (l : list A) :
  List.filter f (List.filter f l) = List.filter f l.
Proof.
  rewrite List_filter_twice. apply filter_ext. intros x. by destruct (f x).
Qed.

Lemma List_filter_split {A : Type} (f g h : A -> bool) (l : list A) :
  (forall x, h x = f x || g x) -> (forall x, f x && g x = false) ->
  List.filter f l ++ List.filter g l ≡ₚ List.filter h l.
Proof.
  intros Hh Hfg. induction l as [|x l IH]; [done|]. simpl.
  rewrite Hh. specialize (Hfg x).
  destruct (f x), (g x); simpl in *; try done.
  - by rewrite IH.
  - by rewrite <- Permutation_middle, IH.
Qed.

Lemma append_assoc (x y z : string) :
  ((x ++ y) ++ z = x ++ y ++ z)%string.
Proof.
  induction x as [|ch x IH]; [done|]. rewrite !append_String. by rewrite IH.
Qed.

Lemma occurs_in_trans (a b c : string) :
  Js.occurs_in a b -> Js.occurs_in b c -> Js.occurs_in a c.
Proof.
  intros (p1 & q1 & ->) (p2 & q2 & ->).
  exists (p2 ++ p1)%string, (q1 ++ q2)%string. by rewrite !append_assoc.
Qed.

Section ListingFacts.
Import ProjectsPage.
Variable toLowerCase : string -> string.

Lemma filterEffect_sublist (ps : list Project) (q : string) (f : StatusFilter) :
  filterEffect toLowerCase ps q f `sublist_of` ps.
Proof. rewrite filterEffect_passes. apply List_filter_sublist. Qed.

Lemma passes_split (q : string) (p : Project) :
  passes toLowerCase q filter_all p
  = passes toLowerCase q filter_active p
    || passes toLowerCase q filter_inactive p.
Proof.
  unfold passes. simpl. destruct (status p); simpl;
    destruct (negb (Js.truthy q) || _ || _); done.
Qed.

Lemma passes_disjoint (q : string) (p : Project) :
  passes toLowerCase q filter_active p
  && passes toLowerCase q filter_inactive p = false.
Proof.
  unfold passes. simpl. destruct (status p); simpl;
    destruct (negb (Js.truthy q) || _ || _); done.
Qed.
End ListingFacts.

(** X12: the filter effect only ever narrows the loaded list: its
    result is a sublist of the loaded projects (their order kept, none
    added or repeated), filtering the result again by the same query and
    status changes nothing, and filtering by query first and by status
    afterwards gives what both together give. *)
Theorem filterEffect_narrows (toLowerCase : string -> string)
    (ps : list ProjectsPage.Project) (q : string)
    (f : ProjectsPage.StatusFilter) :
  ProjectsPage.filterEffect toLowerCase ps q f `sublist_of` ps
  /\ (length (ProjectsPage.filterEffect toLowerCase ps q f) <= length ps)%nat
  /\ ProjectsPage.filterEffect toLowerCase
       (ProjectsPage.filterEffect toLowerCase ps q f) q f
     = ProjectsPage.filterEffect toLowerCase ps q f
  /\ ProjectsPage.filterEffect toLowerCase
       (ProjectsPage.filterEffect toLowerCase ps q ProjectsPage.filter_all)
       "" f
     = ProjectsPage.filterEffect toLowerCase ps q f.
Proof.
  split_and!.
  - apply filterEffect_sublist.
  - apply sublist_length, filterEffect_sublist.
  - rewrite !filterEffect_passes. apply List_filter_idemp.
  - rewrite !filterEffect_passes, List_filter_twice. apply filter_ext.
    intros p. unfold ProjectsPage.passes. simpl.
    by rewrite andb_true_r.
Qed.

(** X13: for any query, the projects listed under the status filter
    ['active'] and those listed under ['inactive'] together are, up to
    order, the projects listed under ['all'], so the two counts add up
    to the third; and the "Active Projects" figure of the summary is the
    number of cards listed under ['active'] with an empty query. *)
Theorem status_filters_partition (toLowerCase : string -> string)
    (ps : list ProjectsPage.Project) (q : string) :
  ProjectsPage.filterEffect toLowerCase ps q ProjectsPage.filter_active
  ++ ProjectsPage.filterEffect toLowerCase ps q ProjectsPage.filter_inactive
  ≡ₚ ProjectsPage.filterEffect toLowerCase ps q ProjectsPage.filter_all
  /\ (length (ProjectsPage.filterEffect toLowerCase ps q
                ProjectsPage.filter_active)
      + length (ProjectsPage.filterEffect toLowerCase ps q
                  ProjectsPage.filter_inactive)
      = length (ProjectsPage.filterEffect toLowerCase ps q
                  ProjectsPage.filter_all))%nat
  /\ ProjectsPage.activeProjects ps
     = length (ProjectsPage.filterEffect toLowerCase ps ""
                 ProjectsPage.filter_active)
  /\ (ProjectsPage.activeProjects ps <= length ps)%nat.
Proof.
  assert (ProjectsPage.filterEffect toLowerCase ps q ProjectsPage.filter_active
          ++ ProjectsPage.filterEffect toLowerCase ps q
               ProjectsPage.filter_inactive
          ≡ₚ ProjectsPage.filterEffect toLowerCase ps q
               ProjectsPage.filter_all) as Hperm.
  { rewrite !filterEffect_passes.
    apply List_filter_split; [apply passes_split | apply passes_disjoint]. }
  split_and!.
  - done.
  - by rewrite <- Hperm, length_app.
  - reflexivity.
  - apply sublist_length, List_filter_sublist.
Qed.

(** X14: a query that contains another shows no more than the other
    does.  When the lower-cased first query occurs in the lower-cased
    second one, every project listed for the second query is listed for
    the first, in the same order, under the same status filter. *)
Theorem longer_query_shows_fewer (toLowerCase : string -> string)
    (ps : list ProjectsPage.Project) (q1 q2 : string)
    (f : ProjectsPage.StatusFilter) :
  toLowerCase "" = "" ->
  Js.occurs_in (toLowerCase q1) (toLowerCase q2) ->
  ProjectsPage.filterEffect toLowerCase ps q2 f
  `sublist_of` ProjectsPage.filterEffect toLowerCase ps q1 f.
Proof.
  intros Hempty Hocc. rewrite !filterEffect_passes.
  apply List_filter_sublist_impl. intros p.
  rewrite !passes_shown by done. unfold ProjectsPage.shown.
  intros [Hq Hst]. split; [|done].
  unfold ProjectsPage.contains_ci in *.
  destruct Hq as [Hq|Hq]; [left|right]; by eapply occurs_in_trans.
Qed.

Lemma longer_query_shows_fewer_witness :
  ProjectsPage.filterEffect Js.ascii_toLowerCase ProjectsPage.mockProjects
    "Management" ProjectsPage.filter_all
  `sublist_of`
  ProjectsPage.filterEffect Js.ascii_toLowerCase ProjectsPage.mockProjects
    "MAN" ProjectsPage.filter_all.
Proof.
  apply (longer_query_shows_fewer Js.ascii_toLowerCase).
  - reflexivity.
  - apply (bool_decide_unpack _). vm_compute. exact I.
Defined.

#[global] Instance Event_eq_dec : EqDecision ProjectsPage.Event.
Proof. solve_decision. Defined.

(** X15: what the page shows instead of the cards.  Until the timer
    fires the page is the spinner alone.  Once the renders of an event
    are over, the page lists exactly the filter's result when that is
    not empty, and otherwise shows the card "No projects found", with a
    query typed or a status selected and no "Create Project" link: it
    never rests on "No projects yet".  In every render, that card and
    the link come together, exactly when no query is typed and no
    status selected, and then the five projects are loaded all the
    same.  Such a render happens: right after the clearing of a query
    that matched nothing. *)
Theorem empty_card_tells_why (toLowerCase : string -> string) :
  (forall evs : list ProjectsPage.Event,
     let s := ProjectsPage.run toLowerCase evs in
     match ProjectsPage.render s with
     | ProjectsPage.spinner => ProjectsPage.TimeoutFired ∉ evs
     | ProjectsPage.listing q f (ProjectsPage.cards listed) =>
         ProjectsPage.TimeoutFired ∈ evs
         /\ listed <> []
         /\ listed
            = ProjectsPage.filterEffect toLowerCase (ProjectsPage.projects s)
                q f
     | ProjectsPage.listing q f
         (ProjectsPage.empty_card title hint createLink) =>
         ProjectsPage.TimeoutFired ∈ evs
         /\ ProjectsPage.filterEffect toLowerCase (ProjectsPage.projects s)
              q f = []
         /\ title = "No projects found"
         /\ createLink = false
         /\ (q <> "" \/ f <> ProjectsPage.filter_all)
     end)
  /\ (forall (evs : list ProjectsPage.Event) (s : ProjectsPage.State),
        s ∈ ProjectsPage.frames toLowerCase evs ->
        match ProjectsPage.render s with
        | ProjectsPage.spinner => ProjectsPage.projects s = []
        | ProjectsPage.listing q f (ProjectsPage.cards listed) =>
            listed <> []
            /\ ProjectsPage.projects s = ProjectsPage.mockProjects
        | ProjectsPage.listing q f
            (ProjectsPage.empty_card title hint createLink) =>
            ProjectsPage.projects s = ProjectsPage.mockProjects
            /\ (title = "No projects yet" \/ title = "No projects found")
            /\ (createLink = true <-> title = "No projects yet")
            /\ (title = "No projects yet"
                <-> q = "" /\ f = ProjectsPage.filter_all)
        end)
  /\ (exists s : ProjectsPage.State,
        s ∈ ProjectsPage.frames Js.ascii_toLowerCase
              [ ProjectsPage.TimeoutFired; ProjectsPage.SearchInput "zzz";
                ProjectsPage.SearchInput "" ]
        /\ length (ProjectsPage.projects s) = 5
        /\ ProjectsPage.render s
           = ProjectsPage.listing "" ProjectsPage.filter_all
               (ProjectsPage.empty_card "No projects yet"
                  "Get started by creating your first database project"
                  true)).
Proof.
  split_and!.
  - intros evs. cbv zeta.
    pose proof (run_settled toLowerCase evs) as Hs.
    pose proof (proj2 (frames_from_loaded_or_loading toLowerCase evs
                         (ProjectsPage.mounted toLowerCase)
                         (mounted_loading toLowerCase)))
      as Hl.
    pose proof (fold_update_isLoading toLowerCase evs
                  (ProjectsPage.mounted toLowerCase)) as Hload.
    fold (ProjectsPage.run toLowerCase evs) in Hl, Hload.
    unfold settled in Hs. unfold loaded_or_loading in Hl.
    unfold ProjectsPage.render, ProjectsPage.renderGrid.
    destruct (ProjectsPage.run toLowerCase evs) as [ps fps q f l].
    simpl in *. destruct l.
    + by apply Hload.
    + assert (ProjectsPage.TimeoutFired ∈ evs) as Hin.
      { destruct (decide (ProjectsPage.TimeoutFired ∈ evs)) as [|Hn];
          [done|]. discriminate (proj2 Hload (conj eq_refl Hn)). }
      subst ps. destruct fps as [|p fps]; simpl; [|done].
      destruct (Js.truthy q) eqn:Eq; simpl.
      * apply truthy_true in Eq. split_and!; try done; auto.
      * apply truthy_false in Eq. subst q.
        destruct f; simpl; split_and!; try done; auto.
  - intros evs s Hin.
    pose proof (frames_loaded_or_loading toLowerCase evs) as Hall.
    rewrite Forall_forall in Hall. specialize (Hall s Hin).
    unfold loaded_or_loading in Hall.
    unfold ProjectsPage.render, ProjectsPage.renderGrid.
    destruct s as [ps fps q f l]. simpl in *. destruct l.
    + by destruct Hall.
    + destruct fps as [|p fps]; simpl; [|done].
      split; [done|].
      destruct (Js.truthy q) eqn:Eq; simpl.
      * apply truthy_true in Eq. split_and!; try done; auto.
        split; [done | by intros [? _]].
      * apply truthy_false in Eq. subst q.
        destruct f; simpl; split_and!; try done; auto;
          split; try done; by intros [_ ?].
  - exists (ProjectsPage.handle (ProjectsPage.SearchInput "")
              (ProjectsPage.run Js.ascii_toLowerCase
                 [ ProjectsPage.TimeoutFired;
                   ProjectsPage.SearchInput "zzz" ])).
    split_and!.
    + apply list_elem_of_In. vm_compute. do 6 right. left. reflexivity.
    + reflexivity.
    + vm_compute. reflexivity.
Qed.

(** After the timer and the query ["zebra"], which matches no project,
    the page rests on "No projects found". *)
Lemma empty_card_tells_why_witness :
  ProjectsPage.render
    (ProjectsPage.run Js.ascii_toLowerCase
       [ ProjectsPage.TimeoutFired; ProjectsPage.SearchInput "zebra" ])
  = ProjectsPage.listing "zebra" ProjectsPage.filter_all
      (ProjectsPage.empty_card "No projects found"
         "Try adjusting your search or filters" false)
  /\ ProjectsPage.TimeoutFired
     ∈ [ ProjectsPage.TimeoutFired; ProjectsPage.SearchInput "zebra" ].
Proof.
  split; [vm_compute; reflexivity|].
  pose proof (proj1 (empty_card_tells_why Js.ascii_toLowerCase)
                [ ProjectsPage.TimeoutFired;
                  ProjectsPage.SearchInput "zebra" ]) as H.
  cbv zeta in H.
  change (ProjectsPage.render
            (ProjectsPage.run Js.ascii_toLowerCase
               [ ProjectsPage.TimeoutFired;
                 ProjectsPage.SearchInput "zebra" ]))
    with (ProjectsPage.listing "zebra" ProjectsPage.filter_all
            (ProjectsPage.empty_card "No projects found"
               "Try adjusting your search or filters" false)) in H.
  exact (proj1 H).
Defined.

(** * Further properties of the registry tables: the keys *)

Section ApiKeysFacts.
Import InitSql ApiKeys.

Lemma references_true (ps : list projects.row) (k : row) :
  references ps k = true <->
  exists p, p ∈ ps /\ projects.id p = project_id k.
Proof.
  unfold references. rewrite existsb_exists.
  split; intros (p & Hp & Hid); exists p.
  - apply N.eqb_eq in Hid. by rewrite list_elem_of_In.
  - rewrite <- list_elem_of_In. split; [done|]. by apply N.eqb_eq.
Qed.

(** A project that is not among those a statement deletes is still
    there afterwards. *)
Lemma project_survives (e : env) (st : InitSql.statement) (d d' : db)
    (p : projects.row) :
  match st with UPDATE_projects _ _ => False | _ => True end ->
  InitSql.execute e st d = inr d' ->
  p ∈ projects_table d -> p ∉ projects_gone st d -> p ∈ projects_table d'.
Proof.
  destruct st as [v|where_|v|a where_|where_]; simpl; intros Hst H Hp Hgone;
    [|injection H as <-; simpl| |done|injection H as <-; simpl].
  - apply bind_inr in H as (us & _ & [= <-]). simpl. done.
  - unfold projects.delete. rewrite list_elem_of_In, filter_In in *.
    split; [done|]. apply negb_true_iff.
    apply not_true_iff_false. intros Hex. apply Hgone. by split.
  - apply bind_inr in H as (ps & H & [= <-]). simpl.
    unfold projects.insert in H. apply bind_inr in H as (new & _ & [= <-]).
    apply elem_of_app. by left.
  - unfold projects.delete. rewrite list_elem_of_In, filter_In in *.
    split; [done|]. apply negb_true_iff.
    apply not_true_iff_false. intros Hex. apply Hgone. by split.
Qed.

Lemma execute_key_reference (e : env) (st : statement) (s s' : schema) :
  execute e st s = inr s' ->
  key_references_project s -> key_references_project s'.
Proof.
  unfold key_references_project.
  destruct st as [st0|v|where_]; simpl; intros H Href.
  - apply bind_inr in H as (d' & Hd & H).
    assert (forall k, k ∈ cascade (projects_gone st0 (registry s))
                            (api_keys_table s) ->
              k ∈ api_keys_table s
              /\ references (projects_gone st0 (registry s)) k = false)
      as Hkept.
    { intros k Hk. unfold cascade in Hk.
      apply list_elem_of_In, filter_In in Hk as [Hk Hno].
      split; [by apply list_elem_of_In | by apply negb_true_iff]. }
    assert (match st0 with UPDATE_projects _ _ => False | _ => True end ->
            s' = {| registry := d';
                    api_keys_table :=
                      cascade (projects_gone st0 (registry s))
                              (api_keys_table s) |} ->
            forall k, k ∈ api_keys_table s' ->
              exists p, p ∈ projects_table (registry s')
                        /\ projects.id p = project_id k) as Hother.
    { intros Hst -> k [Hk Hno]%Hkept. simpl.
      destruct (Href k Hk) as (p & Hp & Hid). exists p. split; [|done].
      eapply project_survives; [exact Hst|exact Hd|done|].
      intros Hgone. apply not_true_iff_false in Hno. apply Hno.
      apply references_true. by exists p. }
    destruct st0 as [v|where_|v|a where_|where_];
      try (injection H as <-; by apply Hother).
    destruct (forallb _ _) eqn:Eall; [|done]. injection H as <-. simpl.
    intros k Hk. apply references_true.
    rewrite forallb_forall in Eall. by apply Eall, list_elem_of_In.
  - apply bind_inr in H as (ks & H & [= <-]). simpl.
    unfold insert in H. apply bind_inr in H as (new & _ & H).
    destruct (pkey_taken new _); [done|].
    destruct (references _ new) eqn:Er; [|done]. injection H as <-.
    intros k [Hk|Hk%list_elem_of_singleton]%elem_of_app; [by apply Href|].
    subst k. by apply references_true.
  - injection H as <-. simpl. intros k Hk. apply Href.
    apply list_elem_of_In, filter_In in Hk as [Hk _]. by apply list_elem_of_In.
Qed.

Lemma execute_registry (e : env) (st : statement) (s s' : schema) :
  execute e st s = inr s' ->
  registry s' = registry s
  \/ exists st0, InitSql.execute e st0 (registry s) = inr (registry s').
Proof.
  destruct st as [st0|v|where_]; simpl; intros H.
  - apply bind_inr in H as (d' & Hd & H). right. exists st0.
    destruct st0; try (by injection H as <-).
    destruct (forallb _ _); [by injection H as <-|done].
  - apply bind_inr in H as (ks & _ & [= <-]). by left.
  - injection H as <-. by left.
Qed.

Lemma execute_cascaded (e : env) (st0 : InitSql.statement) (s s' : schema) :
  execute e (on_registry st0) s = inr s' ->
  api_keys_table s'
  = cascade (projects_gone st0 (registry s)) (api_keys_table s).
Proof.
  simpl. intros H. apply bind_inr in H as (d' & Hd & H).
  destruct st0; try (by injection H as <-).
  destruct (forallb _ _); [by injection H as <-|done].
Qed.
End ApiKeysFacts.

(** X16: the foreign key of [api_keys]: every key row has its
    [project_id] among the [id]s of [projects], across any accepted
    statement on any of the three tables; after any session every key
    leads to a project and through it to a user; and once users are
    deleted no key is left for any project that one of them owned. *)
Theorem keys_follow_their_project :
  (forall session : list (InitSql.env * ApiKeys.statement),
     ApiKeys.key_has_owner (ApiKeys.run session))
  /\ (forall (e : InitSql.env) (st : ApiKeys.statement)
             (s s' : ApiKeys.schema),
        ApiKeys.key_references_project s ->
        ApiKeys.execute e st s = inr s' ->
        ApiKeys.key_references_project s')
  /\ (forall (e : InitSql.env) (where_ : InitSql.users.row -> bool)
             (s s' : ApiKeys.schema)
             (k : ApiKeys.row) (p : InitSql.projects.row),
        ApiKeys.execute e
          (ApiKeys.on_registry (InitSql.DELETE_FROM_users where_)) s
        = inr s' ->
        k ∈ ApiKeys.api_keys_table s' ->
        p ∈ InitSql.projects_table (ApiKeys.registry s) ->
        InitSql.deleted_owner where_ (ApiKeys.registry s) p ->
        InitSql.projects.id p <> ApiKeys.project_id k).
Proof.
  split_and!.
  - intros session.
    assert (ApiKeys.key_references_project (ApiKeys.run session)
            /\ InitSql.owner_references_user
                 (ApiKeys.registry (ApiKeys.run session))) as [Hk Ho].
    { unfold ApiKeys.run.
      assert (forall s,
                ApiKeys.key_references_project s
                /\ InitSql.owner_references_user (ApiKeys.registry s) ->
                ApiKeys.key_references_project
                  (fold_left ApiKeys.run_statement session s)
                /\ InitSql.owner_references_user
                     (ApiKeys.registry
                        (fold_left ApiKeys.run_statement session s)))
        as Hfold.
      { induction session as [|c session IH]; intros s Hs; [done|].
        simpl. apply IH. unfold ApiKeys.run_statement.
        destruct (ApiKeys.execute c.1 c.2 s) as [err|s'] eqn:E; [done|].
        destruct Hs as [Hk Ho]. split; [by eapply execute_key_reference|].
        destruct (execute_registry _ _ _ _ E) as [->|[st0 Hst0]]; [done|].
        by eapply execute_references. }
      apply Hfold. split; intros x Hx; by apply elem_of_nil in Hx. }
    intros k Hin. destruct (Hk k Hin) as (p & Hp & Hid).
    destruct (Ho p Hp) as (u & Hu & Hown). by exists p, u.
  - intros e st s s' Hs He. by eapply execute_key_reference.
  - intros e where_ s s' k p He Hk Hp (u & Hu & Hw & Hown) Hid.
    rewrite (execute_cascaded _ _ _ _ He) in Hk. unfold ApiKeys.cascade in Hk.
    apply list_elem_of_In, filter_In in Hk as [_ Hno].
    apply negb_true_iff, not_true_iff_false in Hno. apply Hno.
    apply references_true. exists p. split; [|done]. simpl.
    apply list_elem_of_In, filter_In. split; [by apply list_elem_of_In|].
    apply existsb_exists. exists u. split.
    + apply filter_In. split; [by apply list_elem_of_In|done].
    + by apply N.eqb_eq.
Qed.

Lemma keys_follow_their_project_witness :
  exists s' : ApiKeys.schema,
    ApiKeys.execute (InitSql.session_env 13)
      (ApiKeys.on_registry (InitSql.DELETE_FROM_users (fun _ => true)))
      ApiKeys.alice_with_key = inr s'
    /\ ApiKeys.api_keys_table s' = []
    /\ ApiKeys.key_references_project s'.
Proof.
  eexists. split; [vm_compute; reflexivity|]. split; [reflexivity|].
  apply (proj1 (proj2 keys_follow_their_project) (InitSql.session_env 13)
           (ApiKeys.on_registry (InitSql.DELETE_FROM_users (fun _ => true)))
           ApiKeys.alice_with_key).
  - intros k Hk. vm_compute in Hk.
    apply list_elem_of_singleton in Hk as ->.
    eexists. split; [apply list_elem_of_In; vm_compute; left|]; reflexivity.
  - vm_compute. reflexivity.
Defined.

(** A project that a key refers to cannot change its [id]. *)
Example referenced_project_keeps_id :
  ApiKeys.execute (InitSql.session_env 13)
    (ApiKeys.on_registry
       (InitSql.UPDATE_projects
          (InitSql.projects.mkAssignments (Some (Some 99%N)) None None None
             None None None None None None)
          (fun _ => true)))
    ApiKeys.alice_with_key
  = inl (InitSql.foreign_key_violation "api_keys_project_id_fkey").
Proof. vm_compute. reflexivity. Qed.

(** * Further properties of the registry tables: what is stored *)

Section StorageFacts.
Import InitSql.

Lemma append_empty_r (s : string) : (s ++ "")%string = s.
Proof.
  induction s as [|c s IH]; [done|]. rewrite append_String. by rewrite IH.
Qed.

Lemma varchar_stored_as (n : nat) (column v s : string) :
  varchar n column v = inr s ->
  stored_as v s /\ ((String.length v <= n)%nat -> s = v).
Proof.
  unfold varchar. destruct (String.length v <=? n)%nat eqn:E.
  - intros [= <-]. split; [|done]. exists "". by rewrite append_empty_r.
  - pose proof (clip_append n v) as Hv.
    destruct (clip n v) as [kept excess]. simpl in Hv.
    destruct (all_spaces excess) eqn:Es; [|done]. intros [= <-]. split.
    + by exists excess.
    + apply Nat.leb_gt in E. lia.
Qed.

Lemma not_null_varchar_stored (n : nat) (column : string)
    (v : option string) (s : string) :
  not_null column v ≫= varchar n column = inr s ->
  exists given, v = Some given /\ stored_as given s
                /\ ((String.length given <= n)%nat -> s = given).
Proof.
  intros H. apply bind_inr in H as (given & Hv & H).
  destruct v as [x|]; [|done]. injection Hv as ->.
  exists given. split; [done|]. by eapply varchar_stored_as.
Qed.
End StorageFacts.

(** X18: what an accepted [INSERT INTO projects] stores.  It adds one
    row at the end of the table and changes no other row and no user.
    The row has the given [id], or the generated one; the given
    [owner_id]; the given [description] and [connection_string] as they
    are; the given [name], [database_type] and [database_name], as they
    are when they fit their column and otherwise without the spaces at
    their end; and the given time stamps, or [CURRENT_TIMESTAMP]. *)
Theorem insert_stores_given_values
    (e : InitSql.env) (v : InitSql.projects.values) (d d' : InitSql.db) :
  InitSql.execute e (InitSql.INSERT_INTO_projects v) d = inr d' ->
  InitSql.users_table d' = InitSql.users_table d
  /\ exists new : InitSql.projects.row,
       InitSql.projects_table d' = InitSql.projects_table d ++ [new]
       /\ InitSql.projects.id new
          = default (InitSql.uuid_generate_v4 e) (InitSql.projects.v_id v)
       /\ InitSql.projects.v_owner_id v
          = Some (InitSql.projects.owner_id new)
       /\ InitSql.projects.description new = InitSql.projects.v_description v
       /\ InitSql.projects.connection_string new
          = InitSql.projects.v_connection_string v
       /\ (exists given, InitSql.projects.v_name v = Some given
             /\ InitSql.stored_as given (InitSql.projects.name new)
             /\ ((String.length given <= 255)%nat ->
                 InitSql.projects.name new = given))
       /\ (exists given, InitSql.projects.v_database_type v = Some given
             /\ InitSql.stored_as given (InitSql.projects.database_type new)
             /\ ((String.length given <= 50)%nat ->
                 InitSql.projects.database_type new = given))
       /\ (exists given, InitSql.projects.v_database_name v = Some given
             /\ InitSql.stored_as given (InitSql.projects.database_name new)
             /\ ((String.length given <= 255)%nat ->
                 InitSql.projects.database_name new = given))
       /\ InitSql.projects.created_at new
          = Some (default (InitSql.CURRENT_TIMESTAMP e)
                    (InitSql.projects.v_created_at v))
       /\ InitSql.projects.updated_at new
          = Some (default (InitSql.CURRENT_TIMESTAMP e)
                    (InitSql.projects.v_updated_at v)).
Proof.
  simpl. intros H. apply bind_inr in H as (ps & H & [= <-]). simpl.
  split; [done|]. unfold InitSql.projects.insert in H.
  apply bind_inr in H as (new & H & [= <-]).
  apply bind_inr in H as (built & Hb & H).
  apply check_passed in H as (-> & _). exists built. split; [done|].
  unfold InitSql.projects.build in Hb.
  apply bind_inr in Hb as (name' & Hn%not_null_varchar_stored & Hb).
  apply bind_inr in Hb as (kind' & Hk%not_null_varchar_stored & Hb).
  apply bind_inr in Hb as (dbname' & Hd%not_null_varchar_stored & Hb).
  apply bind_inr in Hb as (cid' & _ & Hb).
  apply bind_inr in Hb as (owner' & Ho & [= <-]). simpl.
  destruct (InitSql.projects.v_owner_id v) as [o|]; [|done].
  injection Ho as ->. split_and!; done.
Qed.

Lemma insert_stores_given_values_witness :
  exists d' : InitSql.db,
    InitSql.execute (InitSql.session_env 12)
      (InitSql.INSERT_INTO_projects (InitSql.project_of_alice "blog" "mysql"))
      InitSql.alice_with_shop = inr d'
    /\ exists new : InitSql.projects.row,
         InitSql.projects_table d'
         = InitSql.projects_table InitSql.alice_with_shop ++ [new]
         /\ InitSql.projects.id new = 12%N.
Proof.
  destruct (InitSql.execute (InitSql.session_env 12)
              (InitSql.INSERT_INTO_projects
                 (InitSql.project_of_alice "blog" "mysql"))
              InitSql.alice_with_shop) as [err|d'] eqn:E.
  - vm_compute in E. discriminate E.
  - exists d'. split; [reflexivity|].
    destruct (proj2 (insert_stores_given_values _ _ _ _ E))
      as (new & Happ & Hid & _).
    exists new. split; [exact Happ|exact Hid].
Defined.
